(** * ConsolePage: a shallow embedding of the voice console's state logic

    The component [ConsolePage] (src/pages/ConsolePage.tsx) is glue between
    React state, the browser (animation frames, canvas, local storage,
    prompt) and three SDK objects (RealtimeClient, WavRecorder,
    WavStreamPlayer).  The embedding keeps that shape:

    - React state and refs live in a [World] record;
    - every state setter, SDK call, browser call and console line is
      appended to a [trace], so ordering statements are statements about
      a list;
    - the SDK and the browser are an arbitrary, history dependent
      environment [Env]: an SDK call may return or throw, a browser
      primitive always returns;
    - [try { ... } catch] is the [try_catch] combinator of a small
      state-and-exception monad.

    JavaScript numbers that are counters or ids are integers ([Z]); audio
    levels are exact rationals ([Q]) extended with [NaN], the only special
    value the level arithmetic can produce (an average over an empty
    array).  Rounding of doubles is not modelled there; it is for the
    difference of two timestamps in [formatTime].  Objects used as
    dictionaries ([memoryKv], an event payload, the local storage) are
    finite maps of their own string-keyed properties.  Canvas geometry is
    read through primitives of the browser; [WavRenderer.drawBars] is a
    call of the environment like those of the SDK. *)

From Stdlib Require Import ZArith QArith Qminmax Lqa Lia List.
From Stdlib Require Import Ascii DecimalString.
From stdpp Require Import gmap strings list.

Local Open Scope Z_scope.

(** ** JavaScript values *)

(** The payload of a realtime event and the values of the memory store are
    typed [any].  Objects are compared by reference under [===], so an
    object is represented by its reference. *)
Inductive JsVal : Type :=
| VUndefined
| VNull
| VBool (b : bool)
| VNum (n : Z)
| VStr (s : string)
| VObj (ref : positive).

#[global] Instance JsVal_eq_dec : EqDecision JsVal.
Proof. solve_decision. Defined.

(** ToBoolean: [undefined], [null], [false], [0] and the empty string are
    falsy. *)
Definition truthy (v : JsVal) : bool :=
  match v with
  | VUndefined | VNull => false
  | VBool b => b
  | VNum n => negb (n =? 0)
  | VStr s => negb (String.eqb s "")
  | VObj _ => true
  end.

(** [a === b] on the values above. *)
Definition strict_eq (a b : JsVal) : bool := bool_decide (a = b).

(** ** Event log *)

Inductive Source := client_source | server_source.

(** [interface RealtimeEvent]; [count] is optional, and a delivered event
    may lack its [event] object. *)
Record RealtimeEvent := mkRealtimeEvent {
  time : string;
  source : Source;
  count : option Z;
  event : option (gmap string JsVal);
}.

Definition with_count (c : Z) (r : RealtimeEvent) : RealtimeEvent :=
  mkRealtimeEvent (time r) (source r) (Some c) (event r).

(** [x?.event?.type] *)
Definition event_type (x : option RealtimeEvent) : JsVal :=
  match x with
  | Some r =>
      match event r with
      | Some o => default VUndefined (o !! "type"%string)
      | None => VUndefined
      end
  | None => VUndefined
  end.

(** [lastEvent.count || 1] *)
Definition count_or_1 (r : RealtimeEvent) : Z :=
  match count r with
  | Some c => if c =? 0 then 1 else c
  | None => 1
  end.

(** The updater passed to [setRealtimeEvents] in the ['realtime.event']
    handler. *)
Definition appendRealtimeEvent (realtimeEvent : RealtimeEvent)
    (prevEvents : list RealtimeEvent) : list RealtimeEvent :=
  let lastEvent := last prevEvents in
  if truthy (event_type lastEvent)
     && truthy (event_type (Some realtimeEvent))
     && strict_eq (event_type lastEvent) (event_type (Some realtimeEvent))
  then
    match lastEvent with
    | Some le =>
        removelast prevEvents ++ [with_count (count_or_1 le + 1) le]
    | None => prevEvents ++ [with_count 1 realtimeEvent]
    end
  else prevEvents ++ [with_count 1 realtimeEvent].

(** The guard in front of the updater: [!realtimeEvent ||
    !realtimeEvent.event] *)
Definition valid_event (msg : option RealtimeEvent) : option RealtimeEvent :=
  match msg with
  | Some r => match event r with Some _ => Some r | None => None end
  | None => None
  end.

(** One delivered message, as a function on the list. *)
Definition onRealtimeEvent_list (msg : option RealtimeEvent)
    (prevEvents : list RealtimeEvent) : list RealtimeEvent :=
  match valid_event msg with
  | Some r => appendRealtimeEvent r prevEvents
  | None => prevEvents
  end.

(** No two neighbours carry the same [event.type]. *)
Definition adjacent_types_differ (l : list RealtimeEvent) : Prop :=
  forall i a b, l !! i = Some a -> l !! S i = Some b ->
    event_type (Some a) <> event_type (Some b).

(** No two neighbours carry the same truthy [event.type]. *)
Definition adjacent_truthy_types_differ (l : list RealtimeEvent) : Prop :=
  forall i a b, l !! i = Some a -> l !! S i = Some b ->
    truthy (event_type (Some a)) = true ->
    event_type (Some a) <> event_type (Some b).

(** ** Memory store *)

(** The updater passed to [setMemoryKv] by the [set_memory] tool:
    [const newKv = { ...memoryKv }; newKv[key] = value].  The map holds the
    own properties of the object.  The copy is a plain object, and a plain
    object inherits the accessor [__proto__] from [Object.prototype]: an
    assignment to that name runs the setter, which replaces the prototype
    of [newKv] (for an object or [null]) or does nothing (for any other
    value), and creates no own property.  Every other name, inherited or
    not, is an ordinary assignment.  The prototype is not part of the map:
    the page never reads through it, and the next copy drops it. *)
Definition set_memory_update (key : string) (value : JsVal)
    (memoryKv : gmap string JsVal) : gmap string JsVal :=
  let newKv := memoryKv in
  if String.eqb key "__proto__" then newKv else <[key := value]> newKv.

(** The handler's return value [{ ok: true }]. *)
Definition ok_true : gmap string JsVal := {[ "ok"%string := VBool true ]}.

(** ** Audio levels *)

(** A JavaScript number in the level arithmetic: an exact rational, or the
    [NaN] that [0 / 0] yields. *)
Inductive JsNum : Type :=
| NaN
| Num (q : Q).

Definition num_lift2 (f : Q -> Q -> Q) (a b : JsNum) : JsNum :=
  match a, b with
  | Num x, Num y => Num (f x y)
  | _, _ => NaN
  end.

Definition num_add : JsNum -> JsNum -> JsNum := num_lift2 Qplus.
Definition num_mul : JsNum -> JsNum -> JsNum := num_lift2 Qmult.
(** [Math.min] and [Math.max] return [NaN] as soon as an argument is. *)
Definition Math_min : JsNum -> JsNum -> JsNum := num_lift2 Qmin.
Definition Math_max : JsNum -> JsNum -> JsNum := num_lift2 Qmax.

(** [interface AudioLevel] *)
Record AudioLevel := mkAudioLevel {
  level : JsNum;
  id : Z;
}.

(** The initial value of the [audioLevels] state. *)
Definition initialAudioLevels : list AudioLevel :=
  [ mkAudioLevel (Num 20) 1; mkAudioLevel (Num 20) 2; mkAudioLevel (Num 20) 3;
    mkAudioLevel (Num 20) 4; mkAudioLevel (Num 20) 5 ].

(** [values.map(val => val * 2.5)] *)
Definition amplify (values : list Q) : list Q :=
  map (fun val => (val * 2.5)%Q) values.

(** [amplifiedValues.reduce((acc, val) => acc + val, 0) /
    amplifiedValues.length]: over an empty array this is [0 / 0]. *)
Definition average (amplifiedValues : list Q) : JsNum :=
  match amplifiedValues with
  | [] => NaN
  | _ =>
      Num (foldl (fun acc val => (acc + val)%Q) 0%Q amplifiedValues
           / inject_Z (Z.of_nat (length amplifiedValues)))%Q
  end.

(** The body of the map callback of the recording branch, given the value
    [random] that [Math.random()] returned for this element. *)
Definition activeLevel (avg : JsNum) (index : nat) (random : Q)
    (prev : AudioLevel) : AudioLevel :=
  let randomFactor := Num (random * 20 - 10)%Q in
  let baseLevel :=
    Math_min (Num 100)
      (Math_max (Num 20)
         (num_add (num_mul avg (Num 150))
                  (Num (inject_Z (Z.of_nat index) * 10)%Q))) in
  let newLevel := num_add baseLevel randomFactor in
  mkAudioLevel (Math_min (Num 100) (Math_max (Num 20) newLevel)) (id prev).

(** The body of the map callback of the idle branch. *)
Definition idleLevel (random : Q) (prev : AudioLevel) : AudioLevel :=
  mkAudioLevel (num_add (Num 20) (Num (random * 5)%Q)) (id prev).

(** [{ ...level, level: 20 }] *)
Definition resetLevel (prev : AudioLevel) : AudioLevel :=
  mkAudioLevel (Num 20) (id prev).

(** A level inside the closed interval from 20 to 100. *)
Definition level_in_range (l : JsNum) : Prop :=
  match l with
  | Num q => (20 <= q /\ q <= 100)%Q
  | NaN => False
  end.

(** ** The SDK and the browser *)

(** [WavRecorder.getStatus()] *)
Inductive RecorderStatus := status_ended | status_paused | status_recording.

(** [status === 'recording'] *)
Definition is_recording (status : RecorderStatus) : bool :=
  match status with
  | status_recording => true
  | _ => false
  end.

(** The [turn_detection] field of a session update: [null] or
    [{ type: 'server_vad' }]. *)
Inductive TurnDetection := td_null | td_server_vad.

(** The two chunk callbacks the component hands to [wavRecorder.record]:
    [(data) => { if (client.isConnected()) client.appendInputAudio(data.mono) }]
    and [(data) => client.appendInputAudio(data.mono)]. *)
Inductive ChunkHandler := append_if_connected | append_always.

(** The functions the component hands to [requestAnimationFrame]. *)
Inductive FrameCallback := cb_updateAudioLevels | cb_render.

(** A content part of a user message. *)
Inductive Content := input_text (text : string).

Inductive CanvasId := client_canvas | server_canvas.

(** [ItemType], [MediaStream] and [AudioContext] objects are opaque
    references. *)
Definition ItemType : Type := positive.
Definition MediaStream : Type := positive.
Definition AudioContext : Type := positive.
Definition AnalyserNode : Type := positive.

(** Calls into the SDK and the media APIs; each may throw (a rejected
    promise, when awaited). *)
Inductive Call : Type :=
| getUserMedia
| recorder_getStatus
| recorder_pause
| recorder_begin
| recorder_record (handler : ChunkHandler)
| recorder_end
| recorder_getFrequencies
| player_connect
| player_interrupt
| player_getFrequencies
| client_isConnected
| client_updateSession (turn_detection : TurnDetection)
| client_connect
| client_disconnect
| client_sendUserMessageContent (content : list Content)
| client_appendInputAudio (mono : list Z)
| client_getItems
| audioContext_close (ctx : AudioContext)
| drawBars (c : CanvasId) (values : option (list Q)) (color : string)
    (pointCount barWidth barSpacing : Z).

(** What a call returns.  [getFrequencies] returns an object whose
    [values] array may be missing.  [WavRenderer.drawBars] is code of the
    repository outside the page; like the SDK it is left to the
    environment, and it may throw. *)
Definition ret_type (c : Call) : Type :=
  match c with
  | getUserMedia => MediaStream
  | recorder_getStatus => RecorderStatus
  | recorder_getFrequencies | player_getFrequencies => option (list Q)
  | player_interrupt => option (string * Z)
  | client_isConnected => bool
  | client_getItems => list ItemType
  | _ => unit
  end.

(** Browser primitives and property reads; they do not throw. *)
Inductive Prim : Type :=
| requestAnimationFrame (cb : FrameCallback)
| cancelAnimationFrame (handle : Z)
| setTimeout_promise (ms : Z)
| date_toISOString
| Math_random
| recorder_recording
| player_analyser
| canvas_unsized (c : CanvasId)
| canvas_fit (c : CanvasId) (scaled : bool)
| canvas_getContext (c : CanvasId)
| canvas_clearRect (c : CanvasId)
| prompt (message : string)
| location_reload.

Definition prim_type (p : Prim) : Type :=
  match p with
  | requestAnimationFrame _ => Z
  | date_toISOString => string
  | Math_random => Q
  | recorder_recording | player_analyser => bool
  | canvas_unsized _ | canvas_getContext _ => bool
  | prompt _ => option string
  | _ => unit
  end.

Inductive Outcome (A : Type) : Type :=
| Returns (a : A)
| Throws (e : JsVal).
Arguments Returns {A} a.
Arguments Throws {A} e.

(** ** React state *)

Record UIState := mkUIState {
  isConnected : bool;
  isRecording : bool;
  isRecordingActive : bool;
  canPushToTalk : bool;
  items : list ItemType;
  realtimeEvents : list RealtimeEvent;
  memoryKv : gmap string JsVal;
  audioLevels : list AudioLevel;
  audioContext : option AudioContext;
  analyser : option AnalyserNode;
}.

(** The state the hooks start from. *)
Definition initialUIState : UIState :=
  mkUIState false false false false [] [] ∅ initialAudioLevels None None.

(** A call of a state setter, with a value or with an updater. *)
Inductive Setter : Type :=
| setIsConnected (b : bool)
| setIsRecording (b : bool)
| setIsRecordingActive (b : bool)
| setCanPushToTalk (b : bool)
| setItems (l : list ItemType)
| setRealtimeEvents (l : list RealtimeEvent)
| setRealtimeEvents_append (realtimeEvent : RealtimeEvent)
| setMemoryKv (m : gmap string JsVal)
| setMemoryKv_key (key : string) (value : JsVal)
| setAudioContext (o : option AudioContext)
| setAnalyser (o : option AnalyserNode)
| setAudioLevels (l : list AudioLevel)
| setAudioLevels_reset.

Definition applySetter (s : Setter) (u : UIState) : UIState :=
  match u with
  | mkUIState conn rec act ptt its evs kv lvls actx an =>
      match s with
      | setIsConnected b => mkUIState b rec act ptt its evs kv lvls actx an
      | setIsRecording b => mkUIState conn b act ptt its evs kv lvls actx an
      | setIsRecordingActive b => mkUIState conn rec b ptt its evs kv lvls actx an
      | setCanPushToTalk b => mkUIState conn rec act b its evs kv lvls actx an
      | setItems l => mkUIState conn rec act ptt l evs kv lvls actx an
      | setRealtimeEvents l => mkUIState conn rec act ptt its l kv lvls actx an
      | setRealtimeEvents_append r =>
          mkUIState conn rec act ptt its (appendRealtimeEvent r evs) kv lvls actx an
      | setMemoryKv m => mkUIState conn rec act ptt its evs m lvls actx an
      | setMemoryKv_key key value =>
          mkUIState conn rec act ptt its evs (set_memory_update key value kv) lvls actx an
      | setAudioContext o => mkUIState conn rec act ptt its evs kv lvls o an
      | setAnalyser o => mkUIState conn rec act ptt its evs kv lvls actx o
      | setAudioLevels l => mkUIState conn rec act ptt its evs kv l actx an
      | setAudioLevels_reset =>
          mkUIState conn rec act ptt its evs kv (map resetLevel lvls) actx an
      end
  end.

(** ** Traces and worlds *)

Inductive Level := lvl_log | lvl_warn | lvl_error.

Inductive RefWrite :=
| write_startTimeRef (t : string)
| write_animationFrameRef (handle : Z).

Inductive StorageOp :=
| storage_getItem (key : string)
| storage_setItem (key value : string)
| storage_clear.

Inductive Event : Type :=
| ECall (c : Call) (o : Outcome (ret_type c))
| EPrim (p : Prim) (v : prim_type p)
| ESet (s : Setter)
| ERef (w : RefWrite)
| EStorage (op : StorageOp)
| EConsole (lvl : Level) (message : string) (arg : option JsVal).

(** An event that records a throwing call. *)
Definition threw (ev : Event) : bool :=
  match ev with
  | ECall _ (Throws _) => true
  | _ => false
  end.

(** No call of the trace threw. *)
Definition no_throw (evs : list Event) : bool :=
  forallb (fun ev => negb (threw ev)) evs.

(** The closure variables of the canvas render loop: the flag the cleanup
    clears, whether each captured canvas element exists, and whether a 2D
    context is cached for it. *)
Record RenderState := mkRenderState {
  isLoaded : bool;
  clientCanvas : bool;
  serverCanvas : bool;
  clientCtx : bool;
  serverCtx : bool;
}.

Record World := mkWorld {
  ui : UIState;
  animationFrameRef : option Z;
  startTimeRef : string;
  localStorage : gmap string string;
  renderState : RenderState;
  trace : list Event;
}.

(** The environment answers each call from the history so far. *)
Record Env := mkEnv {
  sdk : list Event -> forall c : Call, Outcome (ret_type c);
  browser : list Event -> forall p : Prim, prim_type p;
}.

(** The events a run added to the trace. *)
Definition new_events (w w' : World) : list Event :=
  drop (length (trace w)) (trace w').

(** ** The monad of handlers *)

Inductive Res (A : Type) : Type :=
| Normal (a : A)
| Thrown (e : JsVal).
Arguments Normal {A} a.
Arguments Thrown {A} e.

Definition M (A : Type) : Type := World -> Res A * World.

Definition ret {A} (a : A) : M A := fun w => (Normal a, w).

Definition bind {A B} (m : M A) (k : A -> M B) : M B :=
  fun w =>
    match m w with
    | (Normal a, w') => k a w'
    | (Thrown e, w') => (Thrown e, w')
    end.

#[global] Instance M_ret : MRet M := @ret.
#[global] Instance M_bind : MBind M := fun A B k m => bind m k.

(** [x <~ m; k] binds the result of [m]; [m;; k] (stdpp's notation, through
    the instance above) discards it. *)
Notation "x <~ m ; k" := (bind m (fun x => k))
  (at level 20, m at level 100, k at level 200, only parsing).

(** [try { body } catch (error) { handler }] *)
Definition try_catch {A} (body : M A) (handler : JsVal -> M A) : M A :=
  fun w =>
    match body w with
    | (Normal a, w') => (Normal a, w')
    | (Thrown e, w') => handler e w'
    end.

(** The world with one more event in its trace. *)
Definition log_event (ev : Event) (w : World) : World :=
  mkWorld (ui w) (animationFrameRef w) (startTimeRef w) (localStorage w)
    (renderState w) (trace w ++ [ev]).

(** The world after a state setter was called. *)
Definition apply_set (s : Setter) (w : World) : World :=
  mkWorld (applySetter s (ui w)) (animationFrameRef w) (startTimeRef w)
    (localStorage w) (renderState w) (trace w ++ [ESet s]).

(** The world after an assignment to [ref.current]. *)
Definition write_ref (r : RefWrite) (w : World) : World :=
  match r with
  | write_startTimeRef t =>
      mkWorld (ui w) (animationFrameRef w) t (localStorage w)
        (renderState w) (trace w ++ [ERef r])
  | write_animationFrameRef h =>
      mkWorld (ui w) (Some h) (startTimeRef w) (localStorage w)
        (renderState w) (trace w ++ [ERef r])
  end.

(** The world after an operation on the local storage that leaves it as
    [storage]. *)
Definition with_storage (storage : gmap string string) (op : StorageOp)
    (w : World) : World :=
  mkWorld (ui w) (animationFrameRef w) (startTimeRef w) storage
    (renderState w) (trace w ++ [EStorage op]).

(** The world with other closure variables of the render loop. *)
Definition with_render (r : RenderState) (w : World) : World :=
  mkWorld (ui w) (animationFrameRef w) (startTimeRef w) (localStorage w)
    r (trace w).

Definition emit (ev : Event) : M unit :=
  fun w => (Normal tt, log_event ev w).

Definition get {A} (f : World -> A) : M A := fun w => (Normal (f w), w).

Definition when (b : bool) (m : M unit) : M unit := if b then m else ret tt.

(** ** The handlers of the component

    Each handler is transcribed statement by statement.  An [await] is a
    sequencing point like any other: a handler runs from start to end
    against the environment, and what other handlers do in between is part
    of what the environment answers.  A state setter takes effect at once.

    The refs [clientRef], [wavRecorderRef] and [wavStreamPlayerRef] are
    created holding their objects and are never assigned, so the guards
    [if (!client || !wavRecorder) return] can not fire and are left out.
    The canvas refs start as [null]; what the render effect captured is
    part of the [RenderState]. *)
Section Handlers.
Variable env : Env.

(** An SDK call: ask the environment, log the outcome, return or
    throw. *)
Definition call (c : Call) : M (ret_type c) :=
  fun w =>
    let o := sdk env (trace w) c in
    let w' := log_event (ECall c o) w in
    match o with
    | Returns a => (Normal a, w')
    | Throws e => (Thrown e, w')
    end.

Definition prim (p : Prim) : M (prim_type p) :=
  fun w =>
    let v := browser env (trace w) p in
    (Normal v, log_event (EPrim p v) w).

(** A state setter: the new state, and the call in the trace. *)
Definition set (s : Setter) : M unit :=
  fun w => (Normal tt, apply_set s w).

Definition writeRef (r : RefWrite) : M unit :=
  fun w => (Normal tt, write_ref r w).

Definition console (lvl : Level) (message : string) (arg : option JsVal)
    : M unit :=
  emit (EConsole lvl message arg).

(** *** changeTurnEndType *)

Definition changeTurnEndType (value : string) : M unit :=
  try_catch
    (status <~ call recorder_getStatus;
     when (is_recording status)
       (call recorder_pause;;
        set (setIsRecording false));;
     connected <~ call client_isConnected;
     when connected
       (call (client_updateSession
                (if String.eqb value "none" then td_null else td_server_vad));;
        when (String.eqb value "server_vad")
          (prim (setTimeout_promise 100);;
           call (recorder_record append_if_connected)));;
     set (setCanPushToTalk (String.eqb value "none")))
    (fun error =>
       console lvl_error "Error changing turn end type:" (Some error)).

(** The chunk callbacks, run by the recorder on every chunk. *)
Definition runChunkHandler (h : ChunkHandler) (mono : list Z) : M unit :=
  match h with
  | append_if_connected =>
      connected <~ call client_isConnected;
      when connected (call (client_appendInputAudio mono))
  | append_always => call (client_appendInputAudio mono)
  end.

(** *** updateAudioLevels *)

(** [prev.map((level, index) => ...)] with a callback that has effects
    (it calls [Math.random()]). *)
Fixpoint mapM_index {A B} (f : nat -> A -> M B) (index : nat) (l : list A)
    : M (list B) :=
  match l with
  | [] => ret []
  | x :: xs =>
      y <~ f index x;
      ys <~ mapM_index f (S index) xs;
      ret (y :: ys)
  end.

Definition updateAudioLevels : M unit :=
  recording <~ prim recorder_recording;
  (if recording then
     frequencies <~ call recorder_getFrequencies;
     match frequencies with
     | Some values =>
         let amplifiedValues := amplify values in
         let avg := average amplifiedValues in
         prev <~ get (fun w => audioLevels (ui w));
         next <~ mapM_index
                  (fun index level =>
                     random <~ prim Math_random;
                     ret (activeLevel avg index random level))
                  0%nat prev;
         set (setAudioLevels next)
     | None => ret tt
     end
   else
     prev <~ get (fun w => audioLevels (ui w));
     next <~ mapM_index
              (fun _ level =>
                 random <~ prim Math_random;
                 ret (idleLevel random level))
              0%nat prev;
     set (setAudioLevels next));;
  handle <~ prim (requestAnimationFrame cb_updateAudioLevels);
  writeRef (write_animationFrameRef handle).

(** *** connectConversation *)

Definition connectConversation : M unit :=
  try_catch
    (stream <~ call getUserMedia;
     set (setIsRecordingActive true);;
     handle <~ prim (requestAnimationFrame cb_updateAudioLevels);
     writeRef (write_animationFrameRef handle);;
     console lvl_log "Starting connection..." None;;
     try_catch
       (console lvl_log "Components checked, proceeding with connection..." None;;
        now <~ prim date_toISOString;
        writeRef (write_startTimeRef now);;
        set (setIsConnected true);;
        set (setRealtimeEvents []);;
        conversationItems <~ call client_getItems;
        set (setItems conversationItems);;
        call recorder_begin;;
        call player_connect;;
        call client_connect;;
        connected <~ call client_isConnected;
        when connected
          (console lvl_log "Successfully connected!" None;;
           call (client_updateSession td_server_vad);;
           call (client_sendUserMessageContent [input_text "Привіт!"]);;
           call (recorder_record append_if_connected)))
       (fun error =>
          console lvl_error "Error connecting conversation:" (Some error);;
          set (setIsConnected false);;
          set (setIsRecordingActive false)))
    (fun error =>
       console lvl_error "Error connecting:" (Some error);;
       set (setIsConnected false);;
       set (setIsRecordingActive false)).

(** *** disconnectConversation *)

Definition disconnectConversation : M unit :=
  frame <~ get animationFrameRef;
  match frame with
  | Some handle =>
      when (negb (handle =? 0)) (prim (cancelAnimationFrame handle))
  | None => ret tt
  end;;
  actx <~ get (fun w => audioContext (ui w));
  match actx with
  | Some ctx => call (audioContext_close ctx)
  | None => ret tt
  end;;
  set (setAudioContext None);;
  set (setAnalyser None);;
  set (setIsRecordingActive false);;
  set (setIsConnected false);;
  set setAudioLevels_reset;;
  set (setIsRecording false);;
  set (setRealtimeEvents []);;
  set (setItems []);;
  set (setMemoryKv ∅);;
  call client_disconnect;;
  call recorder_end;;
  call player_interrupt;;
  ret tt.

(** *** API key *)

Definition localStorage_getItem (key : string) : M (option string) :=
  fun w =>
    (Normal (localStorage w !! key),
     with_storage (localStorage w) (storage_getItem key) w).

Definition localStorage_setItem (key value : string) : M unit :=
  fun w =>
    (Normal tt,
     with_storage (<[key := value]> (localStorage w))
       (storage_setItem key value) w).

Definition localStorage_clear : M unit :=
  fun w => (Normal tt, with_storage ∅ storage_clear w).

(** [a || b] on strings that may be [null]: the first one that is
    neither [null] nor empty. *)
Definition nonempty (s : option string) : option string :=
  match s with
  | Some x => if String.eqb x "" then None else Some x
  | None => None
  end.

(** The computation of [apiKey] at the top of the component, with the
    write-back that follows it. *)
Definition apiKey (LOCAL_RELAY_SERVER_URL : string) : M string :=
  key <~ (if negb (String.eqb LOCAL_RELAY_SERVER_URL "") then ret ""%string
         else
           stored <~ localStorage_getItem "tmp::voice_api_key";
           match nonempty stored with
           | Some k => ret k
           | None =>
               entered <~ prim (prompt "OpenAI API Key");
               ret (default ""%string (nonempty entered))
           end);
  when (negb (String.eqb key "")) (localStorage_setItem "tmp::voice_api_key" key);;
  ret key.

Definition resetAPIKey : M unit :=
  entered <~ prim (prompt "OpenAI API Key");
  match entered with
  | Some key =>
      localStorage_clear;;
      localStorage_setItem "tmp::voice_api_key" key;;
      prim location_reload
  | None => ret tt
  end.

(** *** The canvas render loop *)

Definition setClientCtx (b : bool) : M unit :=
  fun w =>
    let r := renderState w in
    (Normal tt,
     with_render
       (mkRenderState (isLoaded r) (clientCanvas r) (serverCanvas r) b
          (serverCtx r)) w).

Definition setServerCtx (b : bool) : M unit :=
  fun w =>
    let r := renderState w in
    (Normal tt,
     with_render
       (mkRenderState (isLoaded r) (clientCanvas r) (serverCanvas r)
          (clientCtx r) b) w).

(** [new Float32Array([0])] *)
Definition zero_values : option (list Q) := Some [0%Q].

Definition render : M unit :=
  loaded <~ get (fun w => isLoaded (renderState w));
  when loaded
    (hasClientCanvas <~ get (fun w => clientCanvas (renderState w));
     when hasClientCanvas
       (unsized <~ prim (canvas_unsized client_canvas);
        when unsized (prim (canvas_fit client_canvas true));;
        cached <~ get (fun w => clientCtx (renderState w));
        ctx <~ (if cached then ret true
               else prim (canvas_getContext client_canvas));
        setClientCtx ctx;;
        when ctx
          (prim (canvas_clearRect client_canvas);;
           recording <~ prim recorder_recording;
           values <~ (if recording then call recorder_getFrequencies
                     else ret zero_values);
           call (drawBars client_canvas values "#4F46E5" 20 2 16)));;
     hasServerCanvas <~ get (fun w => serverCanvas (renderState w));
     when hasServerCanvas
       (unsized <~ prim (canvas_unsized server_canvas);
        when unsized (prim (canvas_fit server_canvas false));;
        cached <~ get (fun w => serverCtx (renderState w));
        ctx <~ (if cached then ret true
               else prim (canvas_getContext server_canvas));
        setServerCtx ctx;;
        when ctx
          (prim (canvas_clearRect server_canvas);;
           hasAnalyser <~ prim player_analyser;
           values <~ (if hasAnalyser then call player_getFrequencies
                     else ret zero_values);
           call (drawBars server_canvas values "#009900" 10 0 8)));;
     prim (requestAnimationFrame cb_render);;
     ret tt).

(** *** Tool and event handlers *)

(** The handler registered for the [set_memory] tool. *)
Definition set_memory (key : string) (value : JsVal)
    : M (gmap string JsVal) :=
  set (setMemoryKv_key key value);;
  ret ok_true.

(** The handler registered for ['realtime.event']. *)
Definition onRealtimeEvent (msg : option RealtimeEvent) : M unit :=
  match valid_event msg with
  | Some realtimeEvent => set (setRealtimeEvents_append realtimeEvent)
  | None => console lvl_warn "Received invalid realtime event:" None
  end.

End Handlers.

(** The world the component starts in: initial React state, no frame
    pending, nothing stored.  The page attaches neither canvas ref to an
    element, so the render effect captures no canvas. *)
Definition initialWorld : World :=
  mkWorld initialUIState None "" ∅
    (mkRenderState true false false false false) [].

(** The same world with both canvases mounted and no context cached
    yet. *)
Definition mountedWorld : World :=
  mkWorld initialUIState None "" ∅
    (mkRenderState true true true false false) [].

(** The world after a sequence of ['realtime.event'] deliveries. *)
Definition deliver (msgs : list (option RealtimeEvent)) (w : World) : World :=
  foldl (fun w msg => snd (onRealtimeEvent msg w)) w msgs.

(** C9 as the claim states it: after the handler ran, the entry for the
    key maps to the value. *)
Definition entry_written (key : string) (value : JsVal) (w : World) : Prop :=
  memoryKv (ui (snd (set_memory key value w))) !! key = Some value.

(** An event whose payload carries no [type]. *)
Definition untyped_event : RealtimeEvent :=
  mkRealtimeEvent "t0" server_source None (Some ∅).

(** An event of the given type. *)
Definition typed_event (ty : string) : RealtimeEvent :=
  mkRealtimeEvent "t0" server_source None (Some {[ "type"%string := VStr ty ]}).


(** The call and the error of an event that records a throw. *)
Definition thrown (ev : Event) : option (Call * JsVal) :=
  match ev with
  | ECall c (Throws e) => Some (c, e)
  | _ => None
  end.

(** The calls of a trace, in order. *)
Definition calls (evs : list Event) : list Call :=
  omap (fun ev => match ev with ECall c _ => Some c | _ => None end) evs.

(** The last [n] events. *)
Definition last_events (n : nat) (evs : list Event) : list Event :=
  drop (length evs - n) evs.

(** An event in which [client.isConnected()] answered [true]. *)
Definition reports_connected (ev : Event) : bool :=
  match ev with
  | ECall c o =>
      match c return Outcome (ret_type c) -> bool with
      | client_isConnected =>
          fun o => match o with Returns b => b | Throws _ => false end
      | _ => fun _ => false
      end o
  | _ => false
  end.

(** The events of the first part of [changeTurnEndType]: the status is
    read, and a recorder that is recording is paused. *)
Definition pause_events (status : RecorderStatus) : list Event :=
  ECall recorder_getStatus (Returns status)
  :: (if is_recording status
      then [ECall recorder_pause (Returns tt); ESet (setIsRecording false)]
      else []).

(** C3 as stated, for the manual mode: a run of
    [changeTurnEndType('none')] in which nothing throws updates the session
    with [turn_detection: null]. *)
Definition none_updates_session (env : Env) (w : World) : Prop :=
  let evs := new_events w (snd (changeTurnEndType env "none" w)) in
  no_throw evs = true -> client_updateSession td_null ∈ calls evs.

(** Calls selected to fail in the examples. *)
Definition updateSession_fails (c : Call) : bool :=
  match c with
  | client_updateSession _ => true
  | _ => false
  end.

Definition recorder_begin_fails (c : Call) : bool :=
  match c with
  | recorder_begin => true
  | _ => false
  end.

(** The console line of the handler that catches a throw of the given
    call in [connectConversation]: the outer handler for the microphone,
    the inner one for everything else. *)
Definition connect_error_message (failing : Call) : string :=
  match failing with
  | getUserMedia => "Error connecting:"
  | _ => "Error connecting conversation:"
  end.

(** The SDK and media calls of [connectConversation], in program order. *)
Definition connect_call_order : list Call :=
  [getUserMedia; client_getItems; recorder_begin; player_connect;
   client_connect; client_isConnected; client_updateSession td_server_vad;
   client_sendUserMessageContent [input_text "Привіт!"];
   recorder_record append_if_connected].

(** The events of [connectConversation] up to the connection test. *)
Definition connect_events (stream : MediaStream) (handle : Z) (now : string)
    (conversationItems : list ItemType) (connected : bool) : list Event :=
  [ECall getUserMedia (Returns stream);
   ESet (setIsRecordingActive true);
   EPrim (requestAnimationFrame cb_updateAudioLevels) handle;
   ERef (write_animationFrameRef handle);
   EConsole lvl_log "Starting connection..." None;
   EConsole lvl_log "Components checked, proceeding with connection..." None;
   EPrim date_toISOString now;
   ERef (write_startTimeRef now);
   ESet (setIsConnected true);
   ESet (setRealtimeEvents []);
   ECall client_getItems (Returns conversationItems);
   ESet (setItems conversationItems);
   ECall recorder_begin (Returns tt);
   ECall player_connect (Returns tt);
   ECall client_connect (Returns tt);
   ECall client_isConnected (Returns connected)].

(** The events that follow when the client reports connected. *)
Definition session_events : list Event :=
  [EConsole lvl_log "Successfully connected!" None;
   ECall (client_updateSession td_server_vad) (Returns tt);
   ECall (client_sendUserMessageContent [input_text "Привіт!"]) (Returns tt);
   ECall (recorder_record append_if_connected) (Returns tt)].

(** The first events of [disconnectConversation]: a frame handle that is
    set and not zero is cancelled, an audio context that is set is
    closed. *)
Definition cancel_events (w : World) : list Event :=
  match animationFrameRef w with
  | Some handle =>
      if handle =? 0 then [] else [EPrim (cancelAnimationFrame handle) tt]
  | None => []
  end.

Definition close_events (w : World) : list Event :=
  match audioContext (ui w) with
  | Some ctx => [ECall (audioContext_close ctx) (Returns tt)]
  | None => []
  end.

(** The state setters of [disconnectConversation], in program order. *)
Definition reset_events : list Event :=
  [ESet (setAudioContext None); ESet (setAnalyser None);
   ESet (setIsRecordingActive false); ESet (setIsConnected false);
   ESet setAudioLevels_reset; ESet (setIsRecording false);
   ESet (setRealtimeEvents []); ESet (setItems []); ESet (setMemoryKv ∅)].

(** An event in which [audioContext.close()] threw. *)
Definition close_failed (ev : Event) : bool :=
  match thrown ev with
  | Some (audioContext_close _, _) => true
  | _ => false
  end.

(** The React state after a disconnect: flags down, lists and memory
    empty, every level back at 20 under its old id. *)
Definition ui_reset (before after : UIState) : Prop :=
  isConnected after = false /\
  isRecording after = false /\
  isRecordingActive after = false /\
  items after = [] /\
  realtimeEvents after = [] /\
  memoryKv after = ∅ /\
  audioContext after = None /\
  analyser after = None /\
  audioLevels after = map resetLevel (audioLevels before) /\
  map id (audioLevels after) = map id (audioLevels before) /\
  Forall (fun a => level a = Num 20) (audioLevels after).

(** A world in the middle of a session: connected, a frame pending, an
    audio context open, a log and a memory entry. *)
Definition sessionWorld : World :=
  mkWorld
    (mkUIState true true true false [5%positive] [with_count 1 untyped_event]
       {[ "name"%string := VStr "Ada" ]}
       [ mkAudioLevel (Num 64) 1; mkAudioLevel (Num 80) 2;
         mkAudioLevel (Num 100) 3; mkAudioLevel (Num 22.5) 4;
         mkAudioLevel (Num 20) 5 ]
       (Some 3%positive) (Some 4%positive))
    (Some 7) "2024-10-01T09:00:00.000Z" ∅
    (mkRenderState true true true true true) [].

(** The local storage entry that holds the API key. *)
Definition api_key_entry : string := "tmp::voice_api_key".

(** A local storage that already holds a key. *)
Definition storedKeyWorld : World :=
  mkWorld initialUIState None "" {[ api_key_entry := "sk-stored"%string ]}
    (mkRenderState true false false false false) [].

(** The events of one canvas in a frame of the render loop: the size
    check, the sizing if the canvas has no size yet, the context lookup if
    none is cached, and, with a context, the drawing events [draw]. *)
Definition canvas_events (c : CanvasId) (scaled cached unsized ctx : bool)
    (draw : list Event) : list Event :=
  EPrim (canvas_unsized c) unsized
  :: (if unsized then [EPrim (canvas_fit c scaled) tt] else [])
  ++ (if cached then [] else [EPrim (canvas_getContext c) ctx])
  ++ (if cached || ctx then draw else []).

(** The drawing events of the client canvas: cleared, then bars from the
    recorder's frequencies if it is recording, from the array [idle] if
    not. *)
Definition client_draw (recording : bool) (values idle : option (list Q))
    : list Event :=
  [EPrim (canvas_clearRect client_canvas) tt;
   EPrim recorder_recording recording]
  ++ (if recording then [ECall recorder_getFrequencies (Returns values)]
      else [])
  ++ [ECall (drawBars client_canvas
               (if recording then values else idle) "#4F46E5" 20 2 16)
        (Returns tt)].

(** The drawing events of the server canvas: cleared, then bars from the
    player's frequencies if its analyser exists, from the array [idle] if
    not. *)
Definition server_draw (hasAnalyser : bool) (values idle : option (list Q))
    : list Event :=
  [EPrim (canvas_clearRect server_canvas) tt;
   EPrim player_analyser hasAnalyser]
  ++ (if hasAnalyser then [ECall player_getFrequencies (Returns values)]
      else [])
  ++ [ECall (drawBars server_canvas
               (if hasAnalyser then values else idle) "#009900" 10 0 8)
        (Returns tt)].

(** C7 as the claim states it: in the frame both canvases are cleared and
    bars are drawn on both. *)
Definition draws_both_canvases (evs : list Event) : Prop :=
  EPrim (canvas_clearRect client_canvas) tt ∈ evs /\
  EPrim (canvas_clearRect server_canvas) tt ∈ evs /\
  (exists values,
      ECall (drawBars client_canvas values "#4F46E5" 20 2 16) (Returns tt)
      ∈ evs) /\
  (exists values,
      ECall (drawBars server_canvas values "#009900" 10 0 8) (Returns tt)
      ∈ evs).

(** ** Assumptions on the environment, and concrete environments *)

(** [Math.random()] returns a number in the half-open unit interval. *)
Definition random_unit (env : Env) : Prop :=
  forall h, (0 <= browser env h Math_random /\ browser env h Math_random < 1)%Q.

(** The recorder's analysis always has at least one frequency band. *)
Definition frequencies_nonempty (env : Env) : Prop :=
  forall h values,
    sdk env h recorder_getFrequencies = Returns (Some values) -> values <> [].

(** The five entries keep their ids, in order, and every level lies
    between 20 and 100. *)
Definition levels_ok (l : list AudioLevel) : Prop :=
  map id l = [1; 2; 3; 4; 5] /\
  Forall (fun a => level_in_range (level a)) l.

Definition answer (connected : bool) (c : Call) : ret_type c :=
  match c return ret_type c with
  | getUserMedia => 1%positive
  | recorder_getStatus => status_paused
  | recorder_getFrequencies => Some [0.25%Q; 0.5%Q]
  | player_getFrequencies => Some [0.75%Q]
  | player_interrupt => None
  | client_isConnected => connected
  | client_getItems => [5%positive]
  | _ => tt
  end.

Definition prim_answer (recording : bool) (p : Prim) : prim_type p :=
  match p return prim_type p with
  | requestAnimationFrame _ => 7
  | date_toISOString => "2024-10-01T09:00:00.000Z"%string
  | Math_random => 0.5%Q
  | recorder_recording => recording
  | player_analyser => recording
  | canvas_unsized _ => false
  | canvas_getContext _ => true
  | prompt _ => Some "sk-entered"%string
  | _ => tt
  end.

(** An environment with a fixed connection and recording state, in which
    exactly the calls selected by [fails] throw. *)
Definition env_of (connected recording : bool) (fails : Call -> bool) : Env :=
  mkEnv
    (fun _ c =>
       if fails c then Throws (VStr "failed") else Returns (answer connected c))
    (fun _ p => prim_answer recording p).

Definition never : Call -> bool := fun _ => false.

(** Whether the client is connected after a history: the last successful
    [connect] or [disconnect] decides. *)
Definition connected_after (h : list Event) : bool :=
  foldl
    (fun st ev =>
       match ev with
       | ECall c o =>
           match c return Outcome (ret_type c) -> bool with
           | client_connect =>
               fun o => match o with Returns _ => true | Throws _ => st end
           | client_disconnect => fun _ => false
           | _ => fun _ => st
           end o
       | _ => st
       end)
    false h.

(** An environment that depends on the history: the client reports
    connected from its [connect] to its [disconnect]. *)
Definition session_env : Env :=
  mkEnv
    (fun h c =>
       match c return Outcome (ret_type c) with
       | client_isConnected => Returns (connected_after h)
       | c => Returns (answer true c)
       end)
    (fun _ p => prim_answer false p).


(** * The rest of the page

    Definitions for the handlers and helpers of the page that the
    properties of the second part are about. *)

(** An event that cancels an animation frame. *)
Definition is_cancel_frame (ev : Event) : bool :=
  match ev with
  | EPrim (cancelAnimationFrame _) _ => true
  | _ => false
  end.

(** An event that requests an animation frame for the given callback. *)
Definition is_request_frame (cb : FrameCallback) (ev : Event) : bool :=
  match ev with
  | EPrim (requestAnimationFrame cb') _ =>
      match cb, cb' with
      | cb_updateAudioLevels, cb_updateAudioLevels => true
      | cb_render, cb_render => true
      | _, _ => false
      end
  | _ => false
  end.

(** An event that requests or cancels an animation frame, or writes
    [animationFrameRef]. *)
Definition touches_frame (ev : Event) : bool :=
  match ev with
  | EPrim (requestAnimationFrame _) _ => true
  | EPrim (cancelAnimationFrame _) _ => true
  | ERef (write_animationFrameRef _) => true
  | _ => false
  end.

(** An event that is a call of the SDK. *)
Definition is_call (ev : Event) : bool :=
  match ev with
  | ECall _ _ => true
  | _ => false
  end.

(** An event that calls a state setter. *)
Definition is_setter (ev : Event) : bool :=
  match ev with
  | ESet _ => true
  | _ => false
  end.

(** The React state [disconnectConversation] leaves behind. *)
Definition reset_ui (u : UIState) : UIState :=
  mkUIState false false false (canPushToTalk u) [] [] ∅
    (map resetLevel (audioLevels u)) None None.

(** ** Audio levels: which random number goes where *)

(** The answers of [Math.random()] among the events, in order. *)
Definition random_answers (evs : list Event) : list Q :=
  omap (fun ev =>
          match ev with
          | EPrim p v =>
              match p return prim_type p -> option Q with
              | Math_random => fun random => Some random
              | _ => fun _ => None
              end v
          | _ => None
          end) evs.

(** The list [prev.map(callback)] produces when the calls of
    [Math.random()] inside the callback answer [randoms], one per entry. *)
Fixpoint levels_from (callback : nat -> Q -> AudioLevel -> AudioLevel)
    (index : nat) (prev : list AudioLevel) (randoms : list Q)
    : list AudioLevel :=
  match prev, randoms with
  | a :: prev', random :: randoms' =>
      callback index random a :: levels_from callback (S index) prev' randoms'
  | _, _ => []
  end.

(** A number brought into the interval from 20 to 100. *)
Definition clamp (x : Q) : Q := Qmin 100 (Qmax 20 x).

(** ** Event log: counts and what a delivery may change *)

(** The sum of the counts of a log; an entry without a count adds
    nothing. *)
Definition sum_counts (l : list RealtimeEvent) : Z :=
  foldr (fun r acc => default 0 (count r) + acc) 0 l.

(** Every entry carries a count of at least one. *)
Definition counted (l : list RealtimeEvent) : Prop :=
  Forall (fun r => exists c, count r = Some c /\ 1 <= c) l.

(** The number of messages that pass the guard of the handler. *)
Definition valid_messages (msgs : list (option RealtimeEvent)) : Z :=
  Z.of_nat (length (omap valid_event msgs)).

(** An entry with its count forgotten. *)
Definition without_count (r : RealtimeEvent) : string * Source * option (gmap string JsVal) :=
  (time r, source r, event r).

(** ** formatTime *)

(** [n + ''] for an integer [n]. *)
Definition toString (n : Z) : string := NilZero.string_of_int (Z.to_int n).

(** The loop of [pad]: [while (s.length < 2) s = '0' + s], run for at most
    [fuel] rounds. *)
Fixpoint pad_loop (fuel : nat) (s : string) : string :=
  match fuel with
  | O => s
  | S fuel' =>
      if (String.length s <? 2)%nat then pad_loop fuel' ("0" +:+ s) else s
  end.

(** [pad(n)]: two rounds are enough for any string. *)
Definition pad (n : Z) : string := pad_loop 2 (toString n).

(** The multiple of [u] nearest to [n]; of two equally near ones, the even
    multiple. *)
Definition round_half_even (n u : Z) : Z :=
  let q := n / u in
  let r := n mod u in
  if 2 * r <? u then q * u
  else if u <? 2 * r then (q + 1) * u
  else if Z.even q then q * u
  else (q + 1) * u.

(** The double nearest to the integer [n]: a double has 53 significant
    bits, so an integer of up to 53 bits is exact and a longer one is
    rounded to a multiple of the power of two that its length exceeds 53
    bits by, ties to the even significand. *)
Definition to_double (n : Z) : Z :=
  let e := Z.log2 (Z.abs n) in
  if e <=? 52 then n else round_half_even n (2 ^ (e - 52)).

(** [formatTime], on the two timestamps as milliseconds since the epoch
    ([new Date(...).valueOf()] of a valid date, an integer of magnitude at
    most 8.64e15 and exact as a double).  The difference of two such
    numbers has up to 54 bits and is rounded to a double.  [Math.floor] of
    a quotient by a positive number is [Z.div], also on doubles here: the
    difference is a multiple of 2 from [2 ^ 53] on, and the quotients by
    10, 1000 and 60000 stay further from the next integer than their
    rounding error.  [%] truncates like [Z.rem]. *)
Definition formatTime (startTime timestamp : Z) : string :=
  let t0 := startTime in
  let t1 := timestamp in
  let delta := to_double (t1 - t0) in
  let hs := Z.rem (delta / 10) 100 in
  let s := Z.rem (delta / 1000) 60 in
  let m := Z.rem (delta / 60000) 60 in
  pad m +:+ ":" +:+ pad s +:+ "." +:+ pad hs.

(** The decimal digit [d] as a character. *)
Definition digit (d : Z) : ascii := ascii_of_nat (48 + Z.to_nat d).

(** A number below 100 written with exactly two digits. *)
Definition two_digits (n : Z) : string :=
  String (digit (n / 10)) (String (digit (n mod 10)) EmptyString).

(** The three fields of [formatTime] for a non-negative difference
    [delta] of the timestamps, which the page holds as a double. *)
Definition minutes_of (delta : Z) : Z := (to_double delta / 60000) mod 60.
Definition seconds_of (delta : Z) : Z := (to_double delta / 1000) mod 60.
Definition hundredths_of (delta : Z) : Z := (to_double delta / 10) mod 100.

(** ** autoConnect *)

(** The effect that connects on its own; [isReady] and [apiKey] are the
    values the effect closed over, [isConnected] is read from the state. *)
Definition autoConnect (env : Env) (isReady : bool)
    (apiKey LOCAL_RELAY_SERVER_URL : string) : M unit :=
  connected <~ get (fun w => isConnected (ui w));
  when (isReady && negb connected
        && (negb (String.eqb apiKey "")
            || negb (String.eqb LOCAL_RELAY_SERVER_URL "")))
    (console lvl_log "Attempting auto-connection..." None;;
     try_catch (connectConversation env)
       (fun error => console lvl_error "Auto-connection failed:" (Some error))).

(** The guard of [autoConnect]. *)
Definition should_autoConnect (isReady connected : bool)
    (apiKey LOCAL_RELAY_SERVER_URL : string) : bool :=
  isReady && negb connected
  && (negb (String.eqb apiKey "")
      || negb (String.eqb LOCAL_RELAY_SERVER_URL "")).

(** The report of the [catch] of [autoConnect]. *)
Definition is_autoConnect_failure (ev : Event) : bool :=
  match ev with
  | EConsole lvl_error msg _ => String.eqb msg "Auto-connection failed:"
  | _ => false
  end.

(** ** The bars of the visualizer *)

(** A rectangle passed to [fillRect]. *)
Record Bar := mkBar {
  bar_x : Q;
  bar_y : Q;
  bar_width : Q;
  bar_height : Q;
}.

(** The [for] loop of [animate]: one bar per byte, [x] advancing by
    [barWidth + 1]. *)
Fixpoint bars_loop (barWidth height x : Q) (dataArray : list Z) : list Bar :=
  match dataArray with
  | [] => []
  | byte :: rest =>
      let barHeight := (inject_Z byte / 255 * height * 0.7)%Q in
      mkBar x (height - barHeight)%Q barWidth barHeight
      :: bars_loop barWidth height (x + (barWidth + 1))%Q rest
  end.

(** [barWidth], as [animate] computes it from the canvas width and the
    number of bytes. *)
Definition barWidth_of (width : Q) (dataArray : list Z) : Q :=
  (width / inject_Z (Z.of_nat (length dataArray)) * 2.5)%Q.

(** The bars one frame of [animate] draws. *)
Definition animate_bars (width height : Q) (dataArray : list Z) : list Bar :=
  bars_loop (barWidth_of width dataArray) height 0%Q dataArray.

(** ** Push-to-talk and conversation handlers

    [startRecording], [stopRecording] and the handlers of
    ['conversation.interrupted'] and ['conversation.updated'] use SDK calls
    the handlers above do not; they get their own calls, events and monad,
    over the same React state and setters. *)
Module Talk.

(** What [wavStreamPlayer.interrupt()] resolves to, when it is an
    object. *)
Record TrackSampleOffset := mkTrackSampleOffset {
  trackId : option string;
  offset : Z;
}.

(** The fields of a conversation item and of a delta that the update
    handler reads. *)
Record Item := mkItem {
  item_id : string;
  status : string;
  formatted_audio : option (list Z);
}.

Record Delta := mkDelta {
  delta_audio : option (list Z);
}.

Definition WavFile : Type := positive.

Inductive Call : Type :=
| recorder_getStatus
| recorder_pause
| recorder_record (handler : ChunkHandler)
| player_interrupt
| player_add16BitPCM (audio : list Z) (trackId : string)
| client_cancelResponse (trackId : string) (sampleCount : Z)
| client_createResponse
| client_getItems
| WavRecorder_decode (audio : list Z) (sampleRate fromSampleRate : Z).

Definition ret_type (c : Call) : Type :=
  match c with
  | recorder_getStatus => RecorderStatus
  | player_interrupt => option TrackSampleOffset
  | client_getItems => list ItemType
  | WavRecorder_decode _ _ _ => WavFile
  | _ => unit
  end.

Inductive Event : Type :=
| ECall (c : Call) (o : Outcome (ret_type c))
| ESet (s : Setter)
| EAssignFile (id : string) (file : WavFile).

Record World := mkWorld {
  ui : UIState;
  trace : list Event;
}.

Definition Env : Type := list Event -> forall c : Call, Outcome (ret_type c).

Definition M (A : Type) : Type := World -> Res A * World.

Definition ret {A} (a : A) : M A := fun w => (Normal a, w).

Definition bind {A B} (m : M A) (k : A -> M B) : M B :=
  fun w =>
    match m w with
    | (Normal a, w') => k a w'
    | (Thrown e, w') => (Thrown e, w')
    end.

#[global] Instance M_ret : MRet M := @ret.
#[global] Instance M_bind : MBind M := fun A B k m => bind m k.

Notation "x <~~ m ; k" := (bind m (fun x => k))
  (at level 20, m at level 100, k at level 200, only parsing).

Definition log_event (ev : Event) (w : World) : World :=
  mkWorld (ui w) (trace w ++ [ev]).

Definition apply_set (s : Setter) (w : World) : World :=
  mkWorld (applySetter s (ui w)) (trace w ++ [ESet s]).

Definition call (env : Env) (c : Call) : M (ret_type c) :=
  fun w =>
    let o := env (trace w) c in
    let w' := log_event (ECall c o) w in
    match o with
    | Returns a => (Normal a, w')
    | Throws e => (Thrown e, w')
    end.

Definition set (s : Setter) : M unit :=
  fun w => (Normal tt, apply_set s w).

(** [item.formatted.file = wavFile] *)
Definition assignFile (id : string) (file : WavFile) : M unit :=
  fun w => (Normal tt, log_event (EAssignFile id file) w).

Definition when (b : bool) (m : M unit) : M unit := if b then m else ret tt.

Definition new_events (w w' : World) : list Event :=
  drop (length (trace w)) (trace w').

(** [if (trackSampleOffset?.trackId) { await client.cancelResponse(trackId,
    offset) }] *)
Definition cancelIfTrack (env : Env) (trackSampleOffset : option TrackSampleOffset)
    : M unit :=
  match trackSampleOffset with
  | Some t =>
      match nonempty (trackId t) with
      | Some id => call env (client_cancelResponse id (offset t))
      | None => ret tt
      end
  | None => ret tt
  end.

Definition startRecording (env : Env) : M unit :=
  status <~~ call env recorder_getStatus;
  when (negb (is_recording status))
    (set (setIsRecording true);;
     trackSampleOffset <~~ call env player_interrupt;
     cancelIfTrack env trackSampleOffset;;
     call env (recorder_record append_always)).

Definition stopRecording (env : Env) : M unit :=
  set (setIsRecording false);;
  status <~~ call env recorder_getStatus;
  when (is_recording status) (call env recorder_pause);;
  call env client_createResponse.

(** The handler of ['conversation.interrupted']. *)
Definition onConversationInterrupted (env : Env) : M unit :=
  trackSampleOffset <~~ call env player_interrupt;
  cancelIfTrack env trackSampleOffset.

(** [item.formatted.audio?.length] as a condition. *)
Definition has_audio (item : Item) : option (list Z) :=
  match formatted_audio item with
  | Some (x :: audio) => Some (x :: audio)
  | _ => None
  end.

(** The handler of ['conversation.updated']. *)
Definition onConversationUpdated (env : Env) (item : Item) (delta : option Delta)
    : M unit :=
  conversationItems <~~ call env client_getItems;
  match delta with
  | Some d =>
      match delta_audio d with
      | Some audio => call env (player_add16BitPCM audio (item_id item))
      | None => ret tt
      end
  | None => ret tt
  end;;
  (if String.eqb (status item) "completed"
   then match has_audio item with
        | Some audio =>
            wavFile <~~ call env (WavRecorder_decode audio 24000 24000);
            assignFile (item_id item) wavFile
        | None => ret tt
        end
   else ret tt);;
  set (setItems conversationItems).

(** An event that records a throw. *)
Definition thrown (ev : Event) : option (Call * JsVal) :=
  match ev with
  | ECall c (Throws e) => Some (c, e)
  | _ => None
  end.

Definition no_throw (evs : list Event) : bool :=
  forallb (fun ev => match thrown ev with Some _ => false | None => true end) evs.

(** The calls of a trace, in order. *)
Definition calls (evs : list Event) : list Call :=
  omap (fun ev => match ev with ECall c _ => Some c | _ => None end) evs.

(** The events of the cancellation that follows an interrupt. *)
Definition cancel_events (trackSampleOffset : option TrackSampleOffset)
    : list Event :=
  match trackSampleOffset with
  | Some t =>
      match nonempty (trackId t) with
      | Some id => [ECall (client_cancelResponse id (offset t)) (Returns tt)]
      | None => []
      end
  | None => []
  end.

(** A world to run the handlers in. *)
Definition initialWorld : World := mkWorld initialUIState [].

(** An environment in which every call returns: the recorder has the
    given status and the player was playing the given track. *)
Definition env_of (status : RecorderStatus)
    (track : option TrackSampleOffset) : Env :=
  fun _ c =>
    match c return Outcome (ret_type c) with
    | recorder_getStatus => Returns status
    | player_interrupt => Returns track
    | client_getItems => Returns [5%positive]
    | WavRecorder_decode _ _ _ => Returns 9%positive
    | _ => Returns tt
    end.

(** The same with a decoder that throws. *)
Definition decode_fails : Env :=
  fun _ c =>
    match c return Outcome (ret_type c) with
    | recorder_getStatus => Returns status_paused
    | player_interrupt => Returns None
    | client_getItems => Returns [5%positive]
    | WavRecorder_decode _ _ _ => Throws (VStr "decode failed")
    | _ => Returns tt
    end.

(** The same with a player whose interrupt throws. *)
Definition interrupt_fails : Env :=
  fun _ c =>
    match c return Outcome (ret_type c) with
    | recorder_getStatus => Returns status_paused
    | player_interrupt => Throws (VStr "interrupt failed")
    | client_getItems => Returns [5%positive]
    | WavRecorder_decode _ _ _ => Returns 9%positive
    | _ => Returns tt
    end.

End Talk.

(** The calls [onConversationUpdated] makes when nothing throws. *)
Definition update_calls (item : Talk.Item) (delta : option Talk.Delta)
    : list Talk.Call :=
  Talk.client_getItems
  :: match delta with
     | Some d =>
         match Talk.delta_audio d with
         | Some audio => [Talk.player_add16BitPCM audio (Talk.item_id item)]
         | None => []
         end
     | None => []
     end
  ++ (if String.eqb (Talk.status item) "completed"
      then match Talk.has_audio item with
           | Some audio => [Talk.WavRecorder_decode audio 24000 24000]
           | None => []
           end
      else []).

(** ** The transcript bubbles *)

(** [item.formatted], as the page reads it: a transcript, a text, and a
    file with its url. *)
Record Formatted := mkFormatted {
  formatted_transcript : option string;
  formatted_text : option string;
  formatted_file : option (option string);
}.

(** The predicate of [items.filter(...)]: [transcript || text || (file &&
    file.url)], as a condition. *)
Definition has_content (f : Formatted) : bool :=
  match nonempty (formatted_transcript f), nonempty (formatted_text f) with
  | Some _, _ => true
  | None, Some _ => true
  | None, None =>
      match formatted_file f with
      | Some url => match nonempty url with Some _ => true | None => false end
      | None => false
      end
  end.

(** [transcript || text || '...'] *)
Definition bubble_text (f : Formatted) : string :=
  match nonempty (formatted_transcript f) with
  | Some s => s
  | None =>
      match nonempty (formatted_text f) with
      | Some s => s
      | None => "..."
      end
  end.

(** The texts of the bubbles the page renders. *)
Definition bubbles (items : list Formatted) : list string :=
  map bubble_text (filter (fun f => has_content f = true) items).

(** ** Failing calls and inputs for concrete runs *)

(** The calls that throw in the environments of the runs below. *)
Definition getUserMedia_fails (c : Call) : bool :=
  match c with
  | getUserMedia => true
  | _ => false
  end.

Definition close_fails (c : Call) : bool :=
  match c with
  | audioContext_close _ => true
  | _ => false
  end.

Definition drawBars_fails (c : Call) : bool :=
  match c with
  | drawBars _ _ _ _ _ _ => true
  | _ => false
  end.

Definition getFrequencies_fails (c : Call) : bool :=
  match c with
  | recorder_getFrequencies => true
  | _ => false
  end.

(** A playing track, and a press of the talk button. *)
Definition playing_track : option Talk.TrackSampleOffset :=
  Some (Talk.mkTrackSampleOffset (Some "track-1"%string) 4800).

(** A completed item with audio, and an update whose decode fails. *)
Definition completed_item : Talk.Item :=
  Talk.mkItem "item-1" "completed" (Some [1; 2; 3]).

(** * Properties *)

(** Unfolding of the monad's combinators in a goal. *)
Ltac unfold_monad :=
  cbv beta iota delta
    [mbind M_bind mret M_ret bind ret try_catch when set call prim emit
     console writeRef get localStorage_getItem localStorage_setItem
     localStorage_clear setClientCtx setServerCtx].

(** ** Event log *)

Lemma onRealtimeEvent_realtimeEvents msg w :
  realtimeEvents (ui (snd (onRealtimeEvent msg w)))
  = onRealtimeEvent_list msg (realtimeEvents (ui w)).
Proof.
  unfold onRealtimeEvent, onRealtimeEvent_list.
  destruct (valid_event msg); [|reflexivity].
  cbn. destruct (ui w); reflexivity.
Qed.

Lemma event_type_with_count c r :
  event_type (Some (with_count c r)) = event_type (Some r).
Proof. reflexivity. Qed.

Lemma adjacent_snoc l a b :
  adjacent_truthy_types_differ (l ++ [a]) ->
  (truthy (event_type (Some a)) = true ->
   event_type (Some a) <> event_type (Some b)) ->
  adjacent_truthy_types_differ ((l ++ [a]) ++ [b]).
Proof.
  intros Hl Hab i x y Hx Hy Ht.
  destruct (decide (S i < length (l ++ [a]))%nat) as [Hlt|Hge].
  - rewrite lookup_app_l in Hx by lia.
    rewrite lookup_app_l in Hy by lia.
    exact (Hl i x y Hx Hy Ht).
  - apply lookup_lt_Some in Hy as Hlen.
    rewrite length_app in Hlen; cbn in Hlen.
    assert (S i = length (l ++ [a])) as Hi by lia.
    rewrite lookup_app_r in Hy by lia.
    rewrite Hi, Nat.sub_diag in Hy. cbn in Hy.
    injection Hy as <-.
    rewrite lookup_app_l in Hx by lia.
    rewrite length_app in Hi; cbn in Hi.
    rewrite lookup_app_r in Hx by lia.
    replace (i - length l)%nat with 0%nat in Hx by lia.
    cbn in Hx. injection Hx as <-.
    exact (Hab Ht).
Qed.

Lemma adjacent_retype l a a' :
  event_type (Some a') = event_type (Some a) ->
  adjacent_truthy_types_differ (l ++ [a]) ->
  adjacent_truthy_types_differ (l ++ [a']).
Proof.
  intros Hty Hl i x y Hx Hy Ht.
  apply lookup_lt_Some in Hy as Hlen.
  rewrite length_app in Hlen; cbn in Hlen.
  rewrite lookup_app_l in Hx by lia.
  destruct (decide (S i < length l)%nat) as [Hlt|Hge].
  - rewrite lookup_app_l in Hy by lia.
    apply (Hl i x y); [rewrite lookup_app_l by lia; exact Hx | | exact Ht].
    rewrite lookup_app_l by lia. exact Hy.
  - rewrite lookup_app_r in Hy by lia.
    replace (S i - length l)%nat with 0%nat in Hy by lia.
    cbn in Hy. injection Hy as <-.
    rewrite Hty.
    apply (Hl i x a); [rewrite lookup_app_l by lia; exact Hx | | exact Ht].
    rewrite lookup_app_r by lia.
    replace (S i - length l)%nat with 0%nat by lia. reflexivity.
Qed.

Lemma adjacent_single a : adjacent_truthy_types_differ [a].
Proof. intros i x y Hx Hy. destruct i; discriminate. Qed.

Lemma adjacent_nil : adjacent_truthy_types_differ [].
Proof. intros i x y Hx. discriminate. Qed.

Lemma appendRealtimeEvent_adjacent r prev :
  adjacent_truthy_types_differ prev ->
  adjacent_truthy_types_differ (appendRealtimeEvent r prev).
Proof.
  intros Hprev. unfold appendRealtimeEvent.
  destruct prev as [|p ps _] using rev_ind.
  - cbn. apply adjacent_single.
  - rewrite last_snoc.
    destruct (truthy (event_type (Some p))) eqn:Hp; cbn [andb].
    + destruct (truthy (event_type (Some r))) eqn:Hr; cbn [andb].
      * unfold strict_eq. case_bool_decide as Heq.
        -- rewrite removelast_last.
           apply (adjacent_retype ps p); [reflexivity | exact Hprev].
        -- apply adjacent_snoc; [exact Hprev|].
           intros _. rewrite event_type_with_count. exact Heq.
      * apply adjacent_snoc; [exact Hprev|].
        intros _ Heq. rewrite event_type_with_count in Heq.
        rewrite Heq in Hp. congruence.
    + apply adjacent_snoc; [exact Hprev|]. congruence.
Qed.

Lemma onRealtimeEvent_list_adjacent msg prev :
  adjacent_truthy_types_differ prev ->
  adjacent_truthy_types_differ (onRealtimeEvent_list msg prev).
Proof.
  intros H. unfold onRealtimeEvent_list.
  destruct (valid_event msg); [apply appendRealtimeEvent_adjacent|]; exact H.
Qed.

Lemma deliver_adjacent msgs w :
  adjacent_truthy_types_differ (realtimeEvents (ui w)) ->
  adjacent_truthy_types_differ (realtimeEvents (ui (deliver msgs w))).
Proof.
  revert w. induction msgs as [|m ms IH]; intros w H; [exact H|].
  cbn. apply IH. rewrite onRealtimeEvent_realtimeEvents.
  apply onRealtimeEvent_list_adjacent, H.
Qed.

(** C8 (as amended).  After any sequence of deliveries the log never holds
    two neighbours with the same truthy (present, non-empty)
    [event.type], from any log that has the property and so from the empty
    one.  An incoming event with an [event] object whose truthy type equals
    the last entry's replaces that entry by itself with [count || 1]
    incremented (an absent count reads as 1); any other event with an
    [event] object is appended with count 1; a message without an [event]
    object leaves the list as it was. *)
Theorem C8_event_log_reducer :
  (forall msgs w,
      adjacent_truthy_types_differ (realtimeEvents (ui w)) ->
      adjacent_truthy_types_differ (realtimeEvents (ui (deliver msgs w)))) /\
  (forall msgs,
      adjacent_truthy_types_differ
        (realtimeEvents (ui (deliver msgs initialWorld)))) /\
  (forall r o le w,
      event r = Some o ->
      last (realtimeEvents (ui w)) = Some le ->
      truthy (event_type (Some r)) = true ->
      event_type (Some le) = event_type (Some r) ->
      realtimeEvents (ui (snd (onRealtimeEvent (Some r) w)))
      = removelast (realtimeEvents (ui w))
          ++ [with_count (count_or_1 le + 1) le]) /\
  (forall le, count le = None -> count_or_1 le = 1) /\
  (forall r o w,
      event r = Some o ->
      truthy (event_type (Some r)) = false \/
      event_type (last (realtimeEvents (ui w))) <> event_type (Some r) ->
      realtimeEvents (ui (snd (onRealtimeEvent (Some r) w)))
      = realtimeEvents (ui w) ++ [with_count 1 r]) /\
  (forall msg w,
      valid_event msg = None ->
      snd (onRealtimeEvent msg w)
      = snd (console lvl_warn "Received invalid realtime event:" None w) /\
      realtimeEvents (ui (snd (onRealtimeEvent msg w)))
      = realtimeEvents (ui w)).
Proof.
  repeat split.
  - intros msgs w. apply deliver_adjacent.
  - intros msgs. apply deliver_adjacent. apply adjacent_nil.
  - intros r o le w Ho Hlast Ht Heq.
    rewrite onRealtimeEvent_realtimeEvents.
    unfold onRealtimeEvent_list, valid_event. rewrite Ho.
    unfold appendRealtimeEvent. rewrite Hlast, Heq, Ht.
    unfold strict_eq. rewrite bool_decide_eq_true_2 by reflexivity.
    reflexivity.
  - intros le Hc. unfold count_or_1. rewrite Hc. reflexivity.
  - intros r o w Ho Hother.
    rewrite onRealtimeEvent_realtimeEvents.
    unfold onRealtimeEvent_list, valid_event. rewrite Ho.
    unfold appendRealtimeEvent.
    destruct Hother as [Hf|Hne].
    + rewrite Hf, andb_false_r. reflexivity.
    + unfold strict_eq. rewrite bool_decide_eq_false_2 by exact Hne.
      rewrite andb_false_r. reflexivity.
  - unfold onRealtimeEvent. rewrite H. reflexivity.
  - rewrite onRealtimeEvent_realtimeEvents.
    unfold onRealtimeEvent_list. rewrite H. reflexivity.
Qed.

(** The reducer at a concrete log: two events of one type merge, an
    untyped one is appended. *)
Lemma C8_event_log_reducer_witness :
  adjacent_truthy_types_differ
    (realtimeEvents
       (ui (deliver [Some (typed_event "a"); Some (typed_event "a");
                     Some untyped_event] initialWorld))) /\
  realtimeEvents
    (ui (snd (onRealtimeEvent (Some (typed_event "a"))
                (deliver [Some (typed_event "a")] initialWorld))))
  = [with_count 2 (typed_event "a")].
Proof.
  split.
  - apply (proj1 C8_event_log_reducer).
    intros i a b Hi. discriminate.
  - destruct C8_event_log_reducer as (_ & _ & Hmerge & _).
    apply (Hmerge (typed_event "a") {[ "type"%string := VStr "a" ]}
             (with_count 1 (typed_event "a"))); reflexivity.
Defined.

(** C8 as stated fails: two deliveries of an event whose payload has no
    [type] leave two neighbours with equal [event.type], and the second
    was appended, not merged. *)
Lemma C8_counterexample :
  let l := realtimeEvents
             (ui (deliver [Some untyped_event; Some untyped_event]
                    initialWorld)) in
  l = [with_count 1 untyped_event; with_count 1 untyped_event] /\
  ~ adjacent_types_differ l.
Proof.
  split; [reflexivity|].
  intros H.
  apply (H 0%nat (with_count 1 untyped_event) (with_count 1 untyped_event));
    reflexivity.
Qed.

(** ** Memory store *)

(** C9.  The claim fails for the key ['__proto__']: the handler returns
    [{ ok: true }], but [newKv['__proto__'] = 'x'] goes to the prototype
    setter, so [memoryKv] has no entry for the key afterwards and is the
    map it was. *)
Theorem C9_set_memory_proto_key :
  let r := set_memory "__proto__" (VStr "x") initialWorld in
  fst r = Normal {[ "ok"%string := VBool true ]} /\
  memoryKv (ui (snd r)) !! "__proto__"%string = None /\
  memoryKv (ui (snd r)) = memoryKv (ui initialWorld) /\
  ~ entry_written "__proto__" (VStr "x") initialWorld.
Proof.
  cbv zeta. split; [reflexivity|]. split; [reflexivity|].
  split; [reflexivity|].
  unfold entry_written. intros Hwritten. discriminate Hwritten.
Qed.

(** ** Running the combinators *)

Lemma bind_run {A B} (m : M A) (k : A -> M B) w :
  bind m k w
  = match m w with
    | (Normal a, w') => k a w'
    | (Thrown e, w') => (Thrown e, w')
    end.
Proof. reflexivity. Qed.

Lemma ret_run {A} (a : A) w : ret a w = (Normal a, w).
Proof. reflexivity. Qed.

Lemma get_run {A} (f : World -> A) w : get f w = (Normal (f w), w).
Proof. reflexivity. Qed.

Lemma call_run env c w :
  call env c w
  = match sdk env (trace w) c with
    | Returns a => (Normal a, log_event (ECall c (Returns a)) w)
    | Throws e => (Thrown e, log_event (ECall c (Throws e)) w)
    end.
Proof. unfold call. destruct (sdk env (trace w) c); reflexivity. Qed.

Lemma set_run s w : set s w = (Normal tt, apply_set s w).
Proof. reflexivity. Qed.

Lemma writeRef_run r w : writeRef r w = (Normal tt, write_ref r w).
Proof. reflexivity. Qed.

Lemma console_run lvl message arg w :
  console lvl message arg w
  = (Normal tt, log_event (EConsole lvl message arg) w).
Proof. reflexivity. Qed.

Lemma prim_run env p w :
  prim env p w
  = (Normal (browser env (trace w) p),
     log_event (EPrim p (browser env (trace w) p)) w).
Proof. reflexivity. Qed.

(** ** Audio levels *)

Section AudioLevels.
Variable env : Env.

(** The effectful map over the levels never throws, leaves the React
    state and the refs alone, and computes every entry from the entry at
    the same place and one answer of [Math.random()]. *)
Lemma mapM_index_random (g : nat -> Q -> AudioLevel -> AudioLevel) l :
  forall index w,
  exists next w',
    mapM_index
      (fun index level =>
         random <~ prim env Math_random; ret (g index random level))
      index l w = (Normal next, w') /\
    ui w' = ui w /\
    animationFrameRef w' = animationFrameRef w /\
    Forall2
      (fun a b => exists i h, b = g i (browser env h Math_random) a) l next.
Proof.
  induction l as [|x xs IH]; intros index w.
  - exists [], w. cbn. repeat split; try reflexivity. constructor.
  - cbn [mapM_index]. rewrite !bind_run, prim_run. cbv beta iota.
    rewrite ret_run.
    destruct (IH (S index) (log_event (EPrim Math_random
                                (browser env (trace w) Math_random)) w))
      as (next & w' & Hrun & Hui & Href & Hall).
    rewrite bind_run, Hrun.
    eexists _, _. split; [reflexivity|].
    split; [exact Hui|]. split; [exact Href|].
    constructor; [|exact Hall]. eexists _, _. reflexivity.
Qed.

Lemma Forall2_ids (P : AudioLevel -> AudioLevel -> Prop) l next :
  (forall a b, P a b -> id b = id a) ->
  Forall2 P l next -> map id next = map id l.
Proof.
  intros Hid Hall. induction Hall as [|a b l next Hab _ IH]; [reflexivity|].
  cbn. rewrite (Hid a b Hab), IH. reflexivity.
Qed.

Lemma Forall2_right (P : AudioLevel -> AudioLevel -> Prop)
    (R : AudioLevel -> Prop) l next :
  (forall a b, P a b -> R b) -> Forall2 P l next -> Forall R next.
Proof.
  intros HR Hall. induction Hall as [|a b l next Hab _ IH]; constructor.
  - exact (HR a b Hab).
  - exact IH.
Qed.

Lemma clamp_in_range (x : Q) :
  level_in_range (Math_min (Num 100) (Math_max (Num 20) (Num x))).
Proof.
  cbn. split.
  - apply Q.min_glb; [discriminate|apply Q.le_max_l].
  - apply Q.le_min_l.
Qed.

Lemma average_amplify values :
  values <> [] -> exists q, average (amplify values) = Num q.
Proof.
  destruct values as [|v vs]; [congruence|]. intros _.
  eexists. reflexivity.
Qed.

Lemma activeLevel_clamped q index random a :
  exists x,
    level (activeLevel (Num q) index random a)
    = Num (Qmin 100 (Qmax 20 x)).
Proof. eexists. reflexivity. Qed.

Lemma idleLevel_range random a :
  (0 <= random /\ random < 1)%Q ->
  level_in_range (level (idleLevel random a)).
Proof. intros [H0 H1]. cbn. split; lra. Qed.
End AudioLevels.

Lemma audioLevels_applySetter_levels next u :
  audioLevels (applySetter (setAudioLevels next) u) = next.
Proof. destruct u; reflexivity. Qed.

(** One frame of [updateAudioLevels], by what the recorder answers. *)
Lemma updateAudioLevels_cases env w :
  let prev := audioLevels (ui w) in
  let next := audioLevels (ui (snd (updateAudioLevels env w))) in
  let recording := browser env (trace w) recorder_recording in
  let frequencies :=
    sdk env (trace (log_event (EPrim recorder_recording true) w))
      recorder_getFrequencies in
  (recording = true /\
   ((exists e, frequencies = Throws e) \/ frequencies = Returns None) /\
   next = prev) \/
  (recording = true /\
   exists values, frequencies = Returns (Some values) /\
     Forall2
       (fun a b => exists i h,
          b = activeLevel (average (amplify values)) i
                (browser env h Math_random) a) prev next) \/
  (recording = false /\
   Forall2
     (fun a b => exists (i : nat) h,
        b = idleLevel (browser env h Math_random) a)
     prev next).
Proof.
  cbv zeta. unfold updateAudioLevels.
  rewrite bind_run, prim_run. cbv beta iota.
  destruct (browser env (trace w) recorder_recording) eqn:Hrec.
  - unfold mbind, M_bind. rewrite !bind_run, call_run.
    destruct (sdk env _ recorder_getFrequencies) as [[values|]|e] eqn:Hf.
    + right; left. split; [reflexivity|]. exists values.
      split; [reflexivity|].
      cbv beta iota. rewrite !bind_run, get_run. cbv beta iota.
      rewrite bind_run.
      match goal with
      | |- context [mapM_index ?f 0%nat ?l ?w0] =>
          destruct (mapM_index_random env
                      (activeLevel (average (amplify values))) l 0%nat w0)
            as (next & w' & Hrun & Hui & Href & Hall)
      end.
      rewrite Hrun. cbn. unfold apply_set. cbn.
      rewrite audioLevels_applySetter_levels.
      exact Hall.
    + left. split; [reflexivity|]. split; [right; reflexivity|].
      reflexivity.
    + left. split; [reflexivity|]. split; [left; eexists; reflexivity|].
      reflexivity.
  - right; right. split; [reflexivity|].
    unfold mbind, M_bind. rewrite !bind_run, get_run. cbv beta iota.
    rewrite bind_run.
    match goal with
    | |- context [mapM_index ?f 0%nat ?l ?w0] =>
        destruct (mapM_index_random env (fun _ => idleLevel) l 0%nat w0)
          as (next & w' & Hrun & Hui & Href & Hall)
    end.
    rewrite Hrun. cbn. unfold apply_set. cbn.
    rewrite audioLevels_applySetter_levels.
    exact Hall.
Qed.


(** ** Symbolic execution of handlers *)

Lemma new_events_app w w' evs :
  trace w' = trace w ++ evs -> new_events w w' = evs.
Proof. intros H. unfold new_events. rewrite H. apply drop_app_length. Qed.

(** One step of a handler applied to a world; an SDK call splits on its
    outcome. *)
Ltac step :=
  first
    [ rewrite bind_run | rewrite ret_run | rewrite get_run
    | rewrite prim_run;
      match goal with
      | |- context [browser ?e ?h ?p] =>
          let v := fresh "v" in
          let Hv := fresh "Hv" in
          remember (browser e h p) as v eqn:Hv
      end
    | rewrite set_run | rewrite writeRef_run | rewrite console_run
    | rewrite call_run
    | progress cbv beta iota zeta
    | progress cbn [negb]
    | progress unfold mbind, M_bind, try_catch, when, localStorage_getItem,
        localStorage_setItem, localStorage_clear, setClientCtx, setServerCtx
    | progress cbn [ui animationFrameRef audioContext renderState isLoaded
                    clientCanvas serverCanvas clientCtx serverCtx
                    localStorage log_event apply_set write_ref
                    with_storage with_render]
    | match goal with
      | |- context [match sdk ?e ?h ?c with _ => _ end] =>
          destruct (sdk e h c) eqn:?
      | |- context [if ?b then _ else _] => destruct b eqn:?
      end ].

(** The trace of a world built by the steps above, as the old trace
    followed by the new events. *)
Ltac trace_of_run :=
  cbn [trace ui log_event apply_set write_ref animationFrameRef
       with_storage with_render];
  rewrite <- ?app_assoc; cbn [app].

(** Rewrites [new_events w w'] into the list of events the run added. *)
Ltac events_of_run :=
  repeat
    match goal with
    | |- context [new_events ?w ?w'] =>
        erewrite (new_events_app w w') by (trace_of_run; reflexivity)
    end.

(** Splits a membership in an explicit list into its cases. *)
Ltac split_elem_of H :=
  repeat (apply elem_of_cons in H as [->|H]);
  try (apply elem_of_nil in H; destruct H).

(** A list of distinct calls has no duplicates. *)
Ltac nodup_calls :=
  cbn;
  repeat (apply NoDup_cons; split;
          [ let Hin := fresh "Hin" in
            intros Hin;
            repeat (apply elem_of_cons in Hin as [Hin|Hin];
                    [discriminate Hin|]);
            apply elem_of_nil in Hin; exact Hin
          | ]);
  apply NoDup_nil_2.

(** ** Mode switching *)

(** C5.  [changeTurnEndType] always returns normally and makes each call
    at most once.  When a call throws, that call is the last one made: it
    is followed by the console error line carrying the error and by
    nothing else, and [canPushToTalk] keeps the value it had. *)
Theorem C5_changeTurnEndType_catches (env : Env) (value : string) (w : World) :
  let r := changeTurnEndType env value w in
  let evs := new_events w (snd r) in
  fst r = Normal tt /\
  NoDup (calls evs) /\
  (forall ev c e,
      ev ∈ evs -> thrown ev = Some (c, e) ->
      last_events 2 evs
      = [ECall c (Throws e);
         EConsole lvl_error "Error changing turn end type:" (Some e)] /\
      canPushToTalk (ui (snd r)) = canPushToTalk (ui w)).
Proof.
  cbv zeta.
  destruct (changeTurnEndType env value w) as [r w'] eqn:Hrun.
  revert Hrun. unfold changeTurnEndType. repeat step.
  all: intros H; injection H as <- <-; cbn [fst snd].
  all: events_of_run.
  all: split; [reflexivity|].
  all: split; [nodup_calls|].
  all: intros ev failing err Hin Hthrown.
  all: split_elem_of Hin; try discriminate Hthrown.
  all: revert Hthrown; intros [= <- <-].
  all: split; [reflexivity|].
  all: cbn; destruct (ui w); reflexivity.
Qed.

(** A failing session update in manual-mode switching: the error is
    logged and the flag stays [false]. *)
Lemma C5_changeTurnEndType_catches_witness :
  let r := changeTurnEndType (env_of true false updateSession_fails) "none"
             initialWorld in
  last_events 2 (new_events initialWorld (snd r))
  = [ECall (client_updateSession td_null) (Throws (VStr "failed"));
     EConsole lvl_error "Error changing turn end type:" (Some (VStr "failed"))] /\
  canPushToTalk (ui (snd r)) = canPushToTalk (ui initialWorld).
Proof.
  cbv zeta.
  destruct (C5_changeTurnEndType_catches
              (env_of true false updateSession_fails) "none" initialWorld)
    as (_ & _ & Hcatch).
  apply (Hcatch (ECall (client_updateSession td_null) (Throws (VStr "failed")))).
  - vm_compute. do 2 right. left.
  - reflexivity.
Defined.

(** Destructs the values of type [unit] that calls returned. *)
Ltac destruct_units :=
  repeat match goal with
         | a : ret_type _ |- _ => cbn in a
         | a : prim_type _ |- _ => cbn in a
         | a : unit |- _ => destruct a
         | |- context [browser ?e ?h ?p] =>
             let T := eval cbn in (prim_type p) in
             match T with
             | unit => destruct (browser e h p)
             end
         end.

(** C3 (as amended).  On a client that reports connected, and when nothing
    throws, [changeTurnEndType('server_vad')] pauses a recorder that is
    recording, updates the session with [turn_detection: { type:
    'server_vad' }], waits, starts recording with the callback that
    consults the connection, and sets [canPushToTalk] to [false].  That
    callback appends a chunk to the client exactly when the client reports
    connected at that chunk.  When nothing throws,
    [changeTurnEndType('none')] pauses a recorder that is recording,
    updates the session with [turn_detection: null] if the client reports
    connected and makes no session update otherwise, and sets
    [canPushToTalk] to [true]. *)
Theorem C3_changeTurnEndType_modes (env : Env) (w : World) :
  (let r := changeTurnEndType env "server_vad" w in
   let evs := new_events w (snd r) in
   no_throw evs = true ->
   existsb reports_connected evs = true ->
   exists status,
     evs = pause_events status
           ++ [ECall client_isConnected (Returns true);
               ECall (client_updateSession td_server_vad) (Returns tt);
               EPrim (setTimeout_promise 100) tt;
               ECall (recorder_record append_if_connected) (Returns tt);
               ESet (setCanPushToTalk false)] /\
     canPushToTalk (ui (snd r)) = false) /\
  (forall mono,
     let connected := sdk env (trace w) client_isConnected in
     new_events w (snd (runChunkHandler env append_if_connected mono w))
     = ECall client_isConnected connected
       :: match connected with
          | Returns true =>
              [ECall (client_appendInputAudio mono)
                 (sdk env (trace w ++ [ECall client_isConnected connected])
                    (client_appendInputAudio mono))]
          | _ => []
          end) /\
  (let r := changeTurnEndType env "none" w in
   let evs := new_events w (snd r) in
   no_throw evs = true ->
   exists status connected,
     evs = pause_events status
           ++ ECall client_isConnected (Returns connected)
              :: (if connected
                  then [ECall (client_updateSession td_null) (Returns tt)]
                  else [])
           ++ [ESet (setCanPushToTalk true)] /\
     canPushToTalk (ui (snd r)) = true).
Proof.
  split; [|split].
  - cbv zeta.
    destruct (changeTurnEndType env "server_vad" w) as [r w'] eqn:Hrun.
    revert Hrun. unfold changeTurnEndType.
    change (String.eqb "server_vad" "none") with false.
    change (String.eqb "server_vad" "server_vad") with true.
    repeat step.
    all: intros [= <- <-]; cbn [fst snd]; events_of_run.
    all: intros Hno Hconn; try discriminate Hno; try discriminate Hconn.
    all: destruct_units.
    all: match goal with
         | H : is_recording ?st = _ |- _ =>
             exists st; unfold pause_events; rewrite H
         end.
    all: split; [reflexivity|cbn; destruct (ui w); reflexivity].
  - intros mono. cbv zeta. unfold runChunkHandler. repeat step.
    all: cbn [snd]; events_of_run; cbn [trace log_event] in *.
    all: repeat match goal with
                | H : sdk _ _ _ = _ |- _ => rewrite H; clear H
                end.
    all: reflexivity.
  - cbv zeta.
    destruct (changeTurnEndType env "none" w) as [r w'] eqn:Hrun.
    revert Hrun. unfold changeTurnEndType.
    change (String.eqb "none" "none") with true.
    change (String.eqb "none" "server_vad") with false.
    repeat step.
    all: intros [= <- <-]; cbn [fst snd]; events_of_run.
    all: intros Hno; try discriminate Hno.
    all: destruct_units.
    all: match goal with
         | H : is_recording ?st = _ |- _ =>
             exists st; unfold pause_events; rewrite H
         end.
    all: match goal with
         | H : sdk _ _ client_isConnected = Returns ?b |- _ => exists b
         end.
    all: split; [reflexivity|cbn; destruct (ui w); reflexivity].
Qed.

(** Both switches on a connected client with a paused recorder. *)
Lemma C3_changeTurnEndType_modes_witness :
  canPushToTalk
    (ui (snd (changeTurnEndType (env_of true false never) "server_vad"
                initialWorld))) = false /\
  canPushToTalk
    (ui (snd (changeTurnEndType (env_of true false never) "none"
                initialWorld))) = true.
Proof.
  destruct (C3_changeTurnEndType_modes (env_of true false never) initialWorld)
    as (Hvad & _ & Hnone).
  cbv zeta in Hvad, Hnone. split.
  - destruct Hvad as (status & _ & Hflag);
      [vm_compute; reflexivity | vm_compute; reflexivity | exact Hflag].
  - destruct Hnone as (status & connected & _ & Hflag);
      [vm_compute; reflexivity | exact Hflag].
Defined.

(** C3 as stated fails for the manual mode: on a client that is not
    connected, [changeTurnEndType('none')] runs without a throw, sets
    [canPushToTalk], and makes no session update. *)
Lemma C3_counterexample :
  new_events initialWorld
    (snd (changeTurnEndType (env_of false false never) "none" initialWorld))
  = [ECall recorder_getStatus (Returns status_paused);
     ECall client_isConnected (Returns false);
     ESet (setCanPushToTalk true)] /\
  ~ none_updates_session (env_of false false never) initialWorld.
Proof.
  split; [reflexivity|].
  unfold none_updates_session. intros H.
  assert (Hin : client_updateSession td_null
                ∈ [recorder_getStatus; client_isConnected]).
  { apply H. reflexivity. }
  apply elem_of_cons in Hin as [Hin|Hin]; [discriminate Hin|].
  apply elem_of_cons in Hin as [Hin|Hin]; [discriminate Hin|].
  apply elem_of_nil in Hin. exact Hin.
Qed.

(** ** Connecting *)

(** C2.  [connectConversation] always returns normally.  When a call
    inside it throws (the microphone, the recorder, the player, the
    client), that call is followed by exactly the console error line of
    the handler that caught it, carrying the error, and by the two resets;
    [isConnected] and [isRecordingActive] are [false] afterwards. *)
Theorem C2_connectConversation_catches (env : Env) (w : World) :
  let r := connectConversation env w in
  let evs := new_events w (snd r) in
  fst r = Normal tt /\
  (forall ev failing err,
      ev ∈ evs -> thrown ev = Some (failing, err) ->
      last_events 4 evs
      = [ECall failing (Throws err);
         EConsole lvl_error (connect_error_message failing) (Some err);
         ESet (setIsConnected false);
         ESet (setIsRecordingActive false)] /\
      isConnected (ui (snd r)) = false /\
      isRecordingActive (ui (snd r)) = false).
Proof.
  cbv zeta.
  destruct (connectConversation env w) as [r w'] eqn:Hrun.
  revert Hrun. unfold connectConversation. repeat step.
  all: intros [= <- <-]; cbn [fst snd]; events_of_run.
  all: destruct_units.
  all: split; [reflexivity|].
  all: intros ev failing err Hin Hthrown.
  all: split_elem_of Hin; try discriminate Hthrown.
  all: revert Hthrown; intros [= <- <-].
  all: split; [reflexivity|].
  all: cbn; destruct (ui w); split; reflexivity.
Qed.

(** The recorder fails to begin: the inner handler logs and resets. *)
Lemma C2_connectConversation_catches_witness :
  let r := connectConversation (env_of true false recorder_begin_fails)
             initialWorld in
  last_events 4 (new_events initialWorld (snd r))
  = [ECall recorder_begin (Throws (VStr "failed"));
     EConsole lvl_error "Error connecting conversation:" (Some (VStr "failed"));
     ESet (setIsConnected false);
     ESet (setIsRecordingActive false)] /\
  isConnected (ui (snd r)) = false /\
  isRecordingActive (ui (snd r)) = false.
Proof.
  cbv zeta.
  destruct (C2_connectConversation_catches
              (env_of true false recorder_begin_fails) initialWorld)
    as (_ & Hcatch).
  apply (Hcatch (ECall recorder_begin (Throws (VStr "failed")))).
  - vm_compute. do 12 right. left.
  - reflexivity.
Defined.

(** C4.  The SDK and media calls of [connectConversation] are always a
    prefix of its program order.  When nothing throws, the events are
    exactly: microphone, recording flag and first animation frame, new
    start time, [isConnected] set, event log cleared, items loaded from the
    client, recorder begun, player connected, client connected, connection
    tested; and then, only if the client reported connected, session update
    to server VAD, the greeting, and the start of recording into the
    client. *)
Theorem C4_connectConversation_order (env : Env) (w : World) :
  let r := connectConversation env w in
  let evs := new_events w (snd r) in
  calls evs `prefix_of` connect_call_order /\
  (no_throw evs = true ->
   exists stream handle now conversationItems connected,
     evs = connect_events stream handle now conversationItems connected
           ++ (if connected then session_events else []) /\
     startTimeRef (snd r) = now /\
     isConnected (ui (snd r)) = true /\
     realtimeEvents (ui (snd r)) = [] /\
     items (ui (snd r)) = conversationItems).
Proof.
  cbv zeta.
  destruct (connectConversation env w) as [r w'] eqn:Hrun.
  revert Hrun. unfold connectConversation. repeat step.
  all: intros [= <- <-]; cbn [fst snd]; events_of_run.
  all: (split; [eexists; reflexivity|]).
  all: intros Hno; try discriminate Hno.
  all: destruct_units.
  all: do 4 eexists.
  all: match goal with
       | H : sdk _ _ client_isConnected = Returns ?b |- _ => exists b
       end.
  all: split; [reflexivity|].
  all: cbn; destruct (ui w); repeat split; reflexivity.
Qed.

(** A connection in which every call succeeds and the client reports
    connected. *)
Lemma C4_connectConversation_order_witness :
  let r := connectConversation (env_of true false never) initialWorld in
  exists stream handle now conversationItems connected,
    new_events initialWorld (snd r)
    = connect_events stream handle now conversationItems connected
      ++ (if connected then session_events else []) /\
    startTimeRef (snd r) = now /\
    isConnected (ui (snd r)) = true /\
    realtimeEvents (ui (snd r)) = [] /\
    items (ui (snd r)) = conversationItems.
Proof.
  apply (proj2 (C4_connectConversation_order (env_of true false never)
                  initialWorld)).
  vm_compute. reflexivity.
Defined.

(** ** Disconnecting *)

Lemma map_id_resetLevel l : map id (map resetLevel l) = map id l.
Proof. induction l as [|a l IH]; [reflexivity|]. cbn. rewrite IH. reflexivity. Qed.

Lemma Forall_resetLevel l :
  Forall (fun a => level a = Num 20) (map resetLevel l).
Proof. induction l as [|a l IH]; constructor; [reflexivity|exact IH]. Qed.

(** C1.  When nothing throws, [disconnectConversation] does exactly this,
    in this order: it cancels the frame held in [animationFrameRef] (if a
    handle is set), awaits [close()] of the current audio context (if one
    is set), calls the state setters that reset the UI, disconnects the
    client, ends the recorder and interrupts the player.  Unless
    [close()] throws, the UI state is reset whatever the later calls do:
    the three flags are [false], items, event log and memory are empty,
    and every audio level is 20 under its old id. *)
Theorem C1_disconnectConversation_resets (env : Env) (w : World) :
  let r := disconnectConversation env w in
  let evs := new_events w (snd r) in
  (no_throw evs = true ->
   exists track,
     evs = cancel_events w ++ close_events w ++ reset_events
           ++ [ECall client_disconnect (Returns tt);
               ECall recorder_end (Returns tt);
               ECall player_interrupt (Returns track)]) /\
  (existsb close_failed evs = false -> ui_reset (ui w) (ui (snd r))).
Proof.
  cbv zeta.
  destruct (disconnectConversation env w) as [r w'] eqn:Hrun.
  revert Hrun. unfold disconnectConversation.
  destruct w as [u frame start storage rs tr].
  destruct u as [conn rec act ptt its evs kv lvls actx an].
  unfold cancel_events, close_events.
  cbn [animationFrameRef audioContext ui].
  destruct frame as [handle|]; [destruct (handle =? 0) eqn:Hzero|];
    destruct actx as [ctx|].
  all: repeat step.
  all: try match goal with
           | H : negb (_ =? 0) = _ |- _ => rewrite Hzero in H; discriminate H
           end.
  all: intros [= <- <-]; cbn [fst snd]; events_of_run.
  all: destruct_units.
  all: split.
  all: try (intros Hno; try discriminate Hno; eexists; reflexivity).
  all: intros Hclose; try discriminate Hclose.
  all: cbn; unfold ui_reset; cbn.
  all: repeat split; auto using map_id_resetLevel, Forall_resetLevel.
Qed.

(** The component unmounted in the middle of a session: state and refs
    are reset, the pending frame (handle 7) is cancelled and the open audio
    context closed. *)
Lemma C1_disconnectConversation_resets_witness :
  let r := disconnectConversation (env_of true true never) sessionWorld in
  (exists track,
     new_events sessionWorld (snd r)
     = cancel_events sessionWorld ++ close_events sessionWorld ++ reset_events
       ++ [ECall client_disconnect (Returns tt);
           ECall recorder_end (Returns tt);
           ECall player_interrupt (Returns track)]) /\
  ui_reset (ui sessionWorld) (ui (snd r)).
Proof.
  cbv zeta.
  destruct (C1_disconnectConversation_resets (env_of true true never)
              sessionWorld) as (Hevents & Hreset).
  split.
  - apply Hevents. vm_compute. reflexivity.
  - apply Hreset. vm_compute. reflexivity.
Defined.

(** ** API key *)

Lemma nonempty_not_empty x s :
  nonempty x = Some s -> String.eqb s "" = true -> False.
Proof.
  unfold nonempty. destruct x as [y|]; [|discriminate].
  destruct (String.eqb y "") eqn:Hy; [discriminate|].
  intros [= <-]. congruence.
Qed.

(** C6.  Without a relay server the key is the non-empty value stored
    under ['tmp::voice_api_key'], else the non-empty answer to the prompt,
    else the empty string; the prompt is shown only when nothing usable is
    stored.  A non-empty key is written to that entry (and nothing else in
    the storage changes); an empty one writes nothing.  With a relay
    server the key is empty and the storage is not touched.
    [resetAPIKey] prompts; on an answer it clears the storage, stores the
    answer under the same entry and then reloads, so that the storage
    holds that entry alone; on a cancelled prompt it does nothing more. *)
Theorem C6_api_key_storage (env : Env) (w : World) :
  (let r := apiKey env "" w in
   let stored := localStorage w !! api_key_entry in
   let entered :=
     browser env (trace w ++ [EStorage (storage_getItem api_key_entry)])
       (prompt "OpenAI API Key") in
   let key :=
     match nonempty stored with
     | Some k => k
     | None => default ""%string (nonempty entered)
     end in
   fst r = Normal key /\
   new_events w (snd r)
   = EStorage (storage_getItem api_key_entry)
     :: match nonempty stored with
        | Some _ => []
        | None => [EPrim (prompt "OpenAI API Key") entered]
        end
     ++ (if String.eqb key "" then []
         else [EStorage (storage_setItem api_key_entry key)]) /\
   localStorage (snd r)
   = (if String.eqb key "" then localStorage w
      else <[api_key_entry := key]> (localStorage w))) /\
  (forall url, url <> ""%string ->
     apiKey env url w = (Normal ""%string, w)) /\
  (let r := resetAPIKey env w in
   let entered := browser env (trace w) (prompt "OpenAI API Key") in
   new_events w (snd r)
   = EPrim (prompt "OpenAI API Key") entered
     :: match entered with
        | Some key =>
            [EStorage storage_clear;
             EStorage (storage_setItem api_key_entry key);
             EPrim location_reload tt]
        | None => []
        end /\
   localStorage (snd r)
   = match entered with
     | Some key => {[ api_key_entry := key ]}
     | None => localStorage w
     end).
Proof.
  split; [|split].
  - cbv zeta. unfold apiKey. change (negb (String.eqb "" "")) with false.
    cbv iota. fold api_key_entry. repeat step.
    all: cbn [fst snd]; events_of_run.
    all: try match goal with
             | H : negb _ = _ |- _ => cbn in H; discriminate H
             end.
    all: try (exfalso; eapply nonempty_not_empty; eassumption).
    all: subst.
    all: try match goal with
             | H : negb _ = _, H' : String.eqb _ "" = _ |- _ =>
                 cbn [trace with_storage] in H; rewrite H' in H;
                 discriminate H
             end.
    all: cbn; repeat split; reflexivity.
  - intros url Hurl. unfold apiKey.
    destruct (String.eqb url "") eqn:Heq.
    + apply String.eqb_eq in Heq. contradiction.
    + cbn [negb]. repeat step.
      all: try match goal with
               | H : negb _ = _ |- _ => cbn in H; discriminate H
               end.
      reflexivity.
  - cbv zeta. unfold resetAPIKey. repeat step. subst.
    fold api_key_entry.
    destruct (browser env (trace w) (prompt "OpenAI API Key")) as [key|].
    + repeat step. cbn [fst snd]. events_of_run. destruct_units.
      split; reflexivity.
    + repeat step. cbn [fst snd]. events_of_run. split; reflexivity.
Qed.

(** A stored key is used without a prompt and written back; a relay
    server leaves the storage alone; a reset stores the entered key
    alone. *)
Lemma C6_api_key_storage_witness :
  fst (apiKey (env_of true false never) "" storedKeyWorld)
  = Normal "sk-stored"%string /\
  apiKey (env_of true false never) "http://localhost:8081" storedKeyWorld
  = (Normal ""%string, storedKeyWorld) /\
  localStorage (snd (resetAPIKey (env_of true false never) storedKeyWorld))
  = {[ api_key_entry := "sk-entered"%string ]}.
Proof.
  destruct (C6_api_key_storage (env_of true false never) storedKeyWorld)
    as (Hkey & Hrelay & Hreset).
  split; [exact (proj1 Hkey)|]. split.
  - apply Hrelay. discriminate.
  - exact (proj2 Hreset).
Defined.

(** ** Canvas render loop *)

(** Chooses the answer a primitive gave in this run, if it was asked. *)
Ltac answer_of p fallback :=
  match goal with
  | H : ?v = browser _ _ p |- _ => exists v
  | _ => exists fallback
  end.

Ltac frequencies_of c :=
  match goal with
  | H : sdk _ _ c = Returns ?a |- _ => exists a
  | _ => exists None
  end.

(** C7.  A frame of the render loop of an unloaded effect does nothing.
    A frame of a loaded one in which nothing throws consists of the events
    of the client canvas if it is mounted, those of the server canvas if it
    is mounted, and the request for the next frame.  A mounted canvas that
    has a 2D context is cleared and the bars are drawn once: on the client
    canvas from [wavRecorder.getFrequencies('voice')] if
    [wavRecorder.recording] reads true in this frame and from the
    one-element array [[0]] if it reads false; on the server canvas from
    [wavStreamPlayer.getFrequencies('voice')] if the player's analyser
    exists and from [[0]] if not.  A canvas that is not mounted, or has no
    context, is neither cleared nor drawn. *)
Theorem C7_render_sources (env : Env) (w : World) :
  let r := render env w in
  let evs := new_events w (snd r) in
  (isLoaded (renderState w) = false -> evs = []) /\
  (isLoaded (renderState w) = true ->
   no_throw evs = true ->
   exists unsizedC ctxC recording valuesC unsizedS ctxS hasAnalyser valuesS
          handle,
     evs = (if clientCanvas (renderState w)
            then canvas_events client_canvas true (clientCtx (renderState w))
                   unsizedC ctxC
                   (client_draw recording valuesC (Some [0%Q]))
            else [])
           ++ (if serverCanvas (renderState w)
               then canvas_events server_canvas false
                      (serverCtx (renderState w))
                      unsizedS ctxS
                      (server_draw hasAnalyser valuesS (Some [0%Q]))
               else [])
           ++ [EPrim (requestAnimationFrame cb_render) handle]).
Proof.
  cbv zeta. destruct w as [u frame start storage rs tr].
  destruct rs as [loaded canvasC canvasS cachedC cachedS].
  cbn [renderState isLoaded clientCanvas serverCanvas clientCtx serverCtx].
  split.
  - intros ->. unfold render. repeat step. cbn [snd].
    unfold new_events. apply drop_all.
  - intros ->.
    destruct (render env _) as [r w'] eqn:Hrun.
    revert Hrun. unfold render.
    destruct canvasC, canvasS, cachedC, cachedS.
    all: repeat step.
    all: intros [= <- <-]; cbn [fst snd]; events_of_run.
    all: intros Hno; try discriminate Hno.
    all: destruct_units.
    all: answer_of (canvas_unsized client_canvas) false.
    all: answer_of (canvas_getContext client_canvas) false.
    all: answer_of recorder_recording false.
    all: frequencies_of recorder_getFrequencies.
    all: answer_of (canvas_unsized server_canvas) false.
    all: answer_of (canvas_getContext server_canvas) false.
    all: answer_of player_analyser false.
    all: frequencies_of player_getFrequencies.
    all: answer_of (requestAnimationFrame cb_render) 0.
    all: reflexivity.
Qed.

(** A frame with both canvases mounted while the recorder is idle and the
    player has no analyser: both canvases are cleared and drawn from the
    zero array. *)
Lemma C7_render_sources_witness :
  let r := render (env_of true false never) mountedWorld in
  exists unsizedC ctxC recording valuesC unsizedS ctxS hasAnalyser valuesS
         handle,
    new_events mountedWorld (snd r)
    = canvas_events client_canvas true false unsizedC ctxC
        (client_draw recording valuesC (Some [0%Q]))
      ++ canvas_events server_canvas false false unsizedS ctxS
           (server_draw hasAnalyser valuesS (Some [0%Q]))
      ++ [EPrim (requestAnimationFrame cb_render) handle].
Proof.
  apply (proj2 (C7_render_sources (env_of true false never) mountedWorld)).
  - reflexivity.
  - vm_compute. reflexivity.
Defined.

(** C7 as stated fails on the page as it is: no element carries
    [clientCanvasRef] or [serverCanvasRef], so the effect captures no
    canvas, and a frame clears and draws nothing; it only requests the next
    frame. *)
Lemma C7_counterexample :
  let evs :=
    new_events initialWorld
      (snd (render (env_of true true never) initialWorld)) in
  evs = [EPrim (requestAnimationFrame cb_render) 7] /\
  ~ draws_both_canvases evs.
Proof.
  cbv zeta.
  assert (Hevs : new_events initialWorld
                   (snd (render (env_of true true never) initialWorld))
                 = [EPrim (requestAnimationFrame cb_render) 7])
    by reflexivity.
  rewrite Hevs. split; [reflexivity|].
  intros (Hclear & _).
  apply elem_of_cons in Hclear as [Hclear|Hclear]; [discriminate Hclear|].
  apply elem_of_nil in Hclear. exact Hclear.
Qed.

(** ** The model on concrete runs *)

Example render_idle_frame :
  new_events mountedWorld
    (snd (render (env_of true false never) mountedWorld))
  = [EPrim (canvas_unsized client_canvas) false;
     EPrim (canvas_getContext client_canvas) true;
     EPrim (canvas_clearRect client_canvas) tt;
     EPrim recorder_recording false;
     ECall (drawBars client_canvas (Some [0%Q]) "#4F46E5" 20 2 16)
       (Returns tt);
     EPrim (canvas_unsized server_canvas) false;
     EPrim (canvas_getContext server_canvas) true;
     EPrim (canvas_clearRect server_canvas) tt;
     EPrim player_analyser false;
     ECall (drawBars server_canvas (Some [0%Q]) "#009900" 10 0 8)
       (Returns tt);
     EPrim (requestAnimationFrame cb_render) 7].
Proof. reflexivity. Qed.

Example render_recording_frame :
  new_events mountedWorld
    (snd (render (env_of true true never) mountedWorld))
  = [EPrim (canvas_unsized client_canvas) false;
     EPrim (canvas_getContext client_canvas) true;
     EPrim (canvas_clearRect client_canvas) tt;
     EPrim recorder_recording true;
     ECall recorder_getFrequencies (Returns (Some [0.25%Q; 0.5%Q]));
     ECall (drawBars client_canvas (Some [0.25%Q; 0.5%Q]) "#4F46E5" 20 2 16)
       (Returns tt);
     EPrim (canvas_unsized server_canvas) false;
     EPrim (canvas_getContext server_canvas) true;
     EPrim (canvas_clearRect server_canvas) tt;
     EPrim player_analyser true;
     ECall player_getFrequencies (Returns (Some [0.75%Q]));
     ECall (drawBars server_canvas (Some [0.75%Q]) "#009900" 10 0 8)
       (Returns tt);
     EPrim (requestAnimationFrame cb_render) 7].
Proof. reflexivity. Qed.

Example render_without_canvases :
  new_events initialWorld
    (snd (render (env_of true true never) initialWorld))
  = [EPrim (requestAnimationFrame cb_render) 7].
Proof. reflexivity. Qed.

Example switch_before_and_after_connecting :
  let before := changeTurnEndType session_env "none" initialWorld in
  let connected := snd (connectConversation session_env initialWorld) in
  let after := changeTurnEndType session_env "none" connected in
  calls (new_events initialWorld (snd before))
  = [recorder_getStatus; client_isConnected] /\
  calls (new_events initialWorld connected) = connect_call_order /\
  calls (new_events connected (snd after))
  = [recorder_getStatus; client_isConnected; client_updateSession td_null] /\
  canPushToTalk (ui (snd before)) = true /\
  canPushToTalk (ui (snd after)) = true.
Proof. vm_compute. repeat split; reflexivity. Qed.

Example chunks_follow_the_connection :
  let connected := snd (connectConversation session_env initialWorld) in
  let closed := snd (disconnectConversation session_env connected) in
  calls (new_events connected
           (snd (runChunkHandler session_env append_if_connected [1; 2] connected)))
  = [client_isConnected; client_appendInputAudio [1; 2]] /\
  calls (new_events closed
           (snd (runChunkHandler session_env append_if_connected [1; 2] closed)))
  = [client_isConnected].
Proof. vm_compute. repeat split; reflexivity. Qed.

Example connect_then_levels :
  let w := snd (connectConversation (env_of true true never) initialWorld) in
  animationFrameRef w = Some 7 /\
  isConnected (ui w) = true /\
  isRecordingActive (ui w) = true /\
  map level (audioLevels (ui (snd (updateAudioLevels (env_of true true never) w))))
  = [Num 100; Num 100; Num 100; Num 100; Num 100].
Proof. vm_compute. repeat split; reflexivity. Qed.

Example idle_levels :
  map level
    (audioLevels
       (ui (snd (updateAudioLevels (env_of true false never) initialWorld))))
  = [Num 22.5; Num 22.5; Num 22.5; Num 22.5; Num 22.5].
Proof. vm_compute. reflexivity. Qed.

Example merged_counts :
  map (fun r => (event_type (Some r), count r))
    (realtimeEvents
       (ui (deliver [Some (typed_event "a"); Some (typed_event "a");
                     None; Some (typed_event "a"); Some (typed_event "b");
                     Some (typed_event "a")] initialWorld)))
  = [(VStr "a", Some 3); (VStr "b", Some 1); (VStr "a", Some 1)].
Proof. reflexivity. Qed.

(** * Further properties *)

(** ** Connecting and disconnecting: failures and what stays *)

(** X1. When [getUserMedia] rejects, [connectConversation] still resolves:
    the outer [catch] logs 'Error connecting:' with the error and sets
    [isConnected] and [isRecordingActive] to false.  Nothing else happens:
    no frame is requested and the two refs keep their values. *)
Theorem connectConversation_microphone_refused (env : Env) (w : World) e :
  sdk env (trace w) getUserMedia = Throws e ->
  let r := connectConversation env w in
  fst r = Normal tt /\
  new_events w (snd r)
  = [ECall getUserMedia (Throws e);
     EConsole lvl_error "Error connecting:" (Some e);
     ESet (setIsConnected false);
     ESet (setIsRecordingActive false)] /\
  animationFrameRef (snd r) = animationFrameRef w /\
  startTimeRef (snd r) = startTimeRef w.
Proof.
  intros Hmic. cbv zeta. unfold connectConversation.
  repeat step; try congruence.
  cbn [fst snd]. events_of_run.
  assert (e0 = e) as -> by congruence.
  repeat split; reflexivity.
Qed.

(** X2. [connectConversation] never cancels an animation frame.  Once the
    microphone is granted, its next steps are to set [isRecordingActive],
    request the [updateAudioLevels] frame and store the handle in
    [animationFrameRef]; after that the handler, both [catch] blocks
    included, requests no frame, cancels none and does not write the ref
    again.  A connection that fails later does not stop the level
    animation it started. *)
Theorem connectConversation_frame_stays (env : Env) (w : World) :
  let evs := new_events w (snd (connectConversation env w)) in
  existsb is_cancel_frame evs = false /\
  (forall stream,
      sdk env (trace w) getUserMedia = Returns stream ->
      exists handle rest,
        evs = [ECall getUserMedia (Returns stream);
               ESet (setIsRecordingActive true);
               EPrim (requestAnimationFrame cb_updateAudioLevels) handle;
               ERef (write_animationFrameRef handle)] ++ rest /\
        existsb touches_frame rest = false).
Proof.
  cbv zeta.
  destruct (connectConversation env w) as [r w'] eqn:Hrun.
  revert Hrun. unfold connectConversation. repeat step.
  all: intros [= <- <-]; cbn [fst snd]; events_of_run.
  all: split; [reflexivity|].
  all: intros stream Hmic; try congruence.
  all: assert (a = stream) as -> by congruence.
  all: eexists _, _; split; [reflexivity|reflexivity].
Qed.


(** X4. [disconnectConversation] has no [try]: when no call throws it
    resolves, and the first call that throws rejects it with that error and
    is its last step.  If that call is [audioContext.close()], no setter has
    run and the React state is untouched. *)
Theorem disconnectConversation_unguarded (env : Env) (w : World) :
  let r := disconnectConversation env w in
  let evs := new_events w (snd r) in
  (no_throw evs = true -> fst r = Normal tt) /\
  (forall ev failing err,
      ev ∈ evs -> thrown ev = Some (failing, err) ->
      fst r = Thrown err /\
      last evs = Some ev /\
      (forall ctx, failing = audioContext_close ctx ->
         ui (snd r) = ui w /\ existsb is_setter evs = false)).
Proof.
  cbv zeta.
  destruct (disconnectConversation env w) as [r w'] eqn:Hrun.
  revert Hrun. unfold disconnectConversation.
  destruct w as [u frame start storage rs tr].
  destruct u as [conn rec act ptt its evs kv lvls actx an].
  destruct frame as [handle|]; destruct actx as [ctx|].
  all: repeat step.
  all: intros [= <- <-]; cbn [fst snd]; events_of_run.
  all: destruct_units.
  all: split; [intros Hno; try discriminate Hno; reflexivity|].
  all: intros ev failing err Hin Hthrown.
  all: split_elem_of Hin; try discriminate Hthrown.
  all: revert Hthrown; intros [= <- <-].
  all: split; [reflexivity|]. 
  all: split; [reflexivity|].
  all: intros ctx' Hclose; try discriminate Hclose.
  all: split; reflexivity.
Qed.

Lemma resetLevel_idempotent l : map resetLevel (map resetLevel l) = map resetLevel l.
Proof. induction l as [|a l IH]; [reflexivity|]. cbn. rewrite IH. reflexivity. Qed.

Lemma disconnectConversation_reset_ui (env : Env) (w : World) :
  existsb close_failed (new_events w (snd (disconnectConversation env w))) = false ->
  ui (snd (disconnectConversation env w)) = reset_ui (ui w).
Proof.
  destruct (disconnectConversation env w) as [r w'] eqn:Hrun.
  revert Hrun. unfold disconnectConversation.
  destruct w as [u frame start storage rs tr].
  destruct u as [conn rec act ptt its evs kv lvls actx an].
  destruct frame as [handle|]; destruct actx as [ctx|].
  all: repeat step.
  all: intros [= <- <-]; cbn [fst snd]; events_of_run.
  all: intros Hclose; try discriminate Hclose.
  all: reflexivity.
Qed.

Lemma disconnectConversation_frame_ref (env : Env) (w : World) :
  animationFrameRef (snd (disconnectConversation env w)) = animationFrameRef w.
Proof.
  destruct (disconnectConversation env w) as [r w'] eqn:Hrun.
  revert Hrun. unfold disconnectConversation.
  destruct w as [u frame start storage rs tr].
  destruct u as [conn rec act ptt its evs kv lvls actx an].
  destruct frame as [handle|]; destruct actx as [ctx|].
  all: repeat step.
  all: intros [= <- <-]; reflexivity.
Qed.

(** Every run starts by cancelling the frame whose handle is in the
    ref. *)
Lemma disconnectConversation_starts (env : Env) (w : World) :
  exists rest,
    new_events w (snd (disconnectConversation env w)) = cancel_events w ++ rest.
Proof.
  destruct (disconnectConversation env w) as [r w'] eqn:Hrun.
  revert Hrun. unfold disconnectConversation.
  destruct w as [u frame start storage rs tr].
  destruct u as [conn rec act ptt its evs kv lvls actx an].
  unfold cancel_events. cbn [animationFrameRef].
  destruct frame as [handle|]; [destruct (handle =? 0) eqn:Hzero|];
    destruct actx as [ctx|].
  all: repeat step.
  all: try match goal with
           | H : negb (_ =? 0) = _ |- _ => rewrite Hzero in H; discriminate H
           end.
  all: intros [= <- <-]; cbn [fst snd]; events_of_run.
  all: destruct_units.
  all: eexists; reflexivity.
Qed.

(** Without an audio context, a run is the cancellation, the nine resets
    and then SDK calls only, in program order up to the first that
    throws. *)
Lemma disconnectConversation_no_context (env : Env) (w : World) :
  audioContext (ui w) = None ->
  let evs := new_events w (snd (disconnectConversation env w)) in
  existsb close_failed evs = false /\
  exists tail,
    evs = cancel_events w ++ reset_events ++ tail /\
    forallb is_call tail = true /\
    calls tail `prefix_of` [client_disconnect; recorder_end; player_interrupt].
Proof.
  intros Hctx. cbv zeta.
  destruct (disconnectConversation env w) as [r w'] eqn:Hrun.
  revert Hrun. unfold disconnectConversation.
  destruct w as [u frame start storage rs tr].
  destruct u as [conn rec act ptt its evs kv lvls actx an].
  cbn in Hctx. subst actx.
  unfold cancel_events. cbn [animationFrameRef].
  destruct frame as [handle|]; [destruct (handle =? 0) eqn:Hzero|].
  all: repeat step.
  all: try match goal with
           | H : negb (_ =? 0) = _ |- _ => rewrite Hzero in H; discriminate H
           end.
  all: intros [= <- <-]; cbn [fst snd]; events_of_run.
  all: destruct_units.
  all: split; [reflexivity|].
  all: eexists; split; [reflexivity|].
  all: split; [reflexivity|eexists; reflexivity].
Qed.

(** X5. Disconnecting again repeats the steps and changes nothing.  After
    a disconnect whose [audioContext.close()] did not throw, a second
    disconnect cancels the same frame handle once more (the ref was not
    cleared), closes no audio context, runs the nine resets, which leave
    the React state exactly as the first disconnect left it, and then only
    calls the SDK: [client.disconnect], [wavRecorder.end] and
    [wavStreamPlayer.interrupt], in this order, up to the first that
    throws. *)
Theorem disconnectConversation_twice (env env' : Env) (w : World) :
  let w1 := snd (disconnectConversation env w) in
  let r2 := disconnectConversation env' w1 in
  existsb close_failed (new_events w w1) = false ->
  ui (snd r2) = ui w1 /\
  (exists rest, new_events w w1 = cancel_events w ++ rest) /\
  exists tail,
    new_events w1 (snd r2) = cancel_events w ++ reset_events ++ tail /\
    forallb is_call tail = true /\
    calls tail `prefix_of` [client_disconnect; recorder_end; player_interrupt].
Proof.
  cbv zeta. intros Hclose.
  pose proof (disconnectConversation_reset_ui env w Hclose) as Hui.
  assert (Hctx : audioContext (ui (snd (disconnectConversation env w))) = None).
  { rewrite Hui. reflexivity. }
  destruct (disconnectConversation_no_context env' _ Hctx)
    as (Hclose' & tail & Hevs & Hcalls & Hprefix).
  split; [|split; [apply disconnectConversation_starts|]].
  - rewrite (disconnectConversation_reset_ui env' _ Hclose'), Hui.
    unfold reset_ui. cbn. rewrite resetLevel_idempotent. reflexivity.
  - exists tail. split; [|split; [exact Hcalls|exact Hprefix]].
    rewrite Hevs. unfold cancel_events.
    rewrite (disconnectConversation_frame_ref env w). reflexivity.
Qed.

(** ** The level animation loop *)

Lemma no_throw_app l1 l2 : no_throw (l1 ++ l2) = no_throw l1 && no_throw l2.
Proof. unfold no_throw. apply forallb_app. Qed.

Lemma last_events_app l1 l2 : last_events (length l2) (l1 ++ l2) = l2.
Proof.
  unfold last_events. rewrite length_app.
  replace (length l1 + length l2 - length l2)%nat with (length l1) by lia.
  apply drop_app_length.
Qed.

(** Runs the combinators that can not branch. *)
Ltac run_straight :=
  repeat first
    [ rewrite bind_run | rewrite ret_run | rewrite get_run | rewrite prim_run
    | rewrite set_run | rewrite writeRef_run | rewrite console_run
    | progress cbv beta iota ].

(** The map over the levels only asks for random numbers. *)
Lemma mapM_index_random_trace env (g : nat -> Q -> AudioLevel -> AudioLevel) l :
  forall index w,
  exists next w' pre,
    mapM_index
      (fun index level =>
         random <~ prim env Math_random; ret (g index random level))
      index l w = (Normal next, w') /\
    ui w' = ui w /\
    animationFrameRef w' = animationFrameRef w /\
    trace w' = trace w ++ pre /\
    no_throw pre = true /\
    existsb (is_request_frame cb_updateAudioLevels) pre = false.
Proof.
  induction l as [|x xs IH]; intros index w.
  - exists [], w, []. cbn. rewrite app_nil_r. repeat split; reflexivity.
  - cbn [mapM_index]. rewrite !bind_run, prim_run. cbv beta iota.
    rewrite ret_run.
    destruct (IH (S index) (log_event (EPrim Math_random
                                (browser env (trace w) Math_random)) w))
      as (next & w' & pre & Hrun & Hui & Href & Htrace & Hno & Hreq).
    rewrite bind_run, Hrun.
    eexists _, _, (_ :: pre). split; [reflexivity|].
    split; [exact Hui|]. split; [exact Href|].
    split; [rewrite Htrace; cbn; rewrite <- app_assoc; reflexivity|].
    split; [exact Hno|exact Hreq].
Qed.

(** A frame of [updateAudioLevels] either dies on the analyser or ends by
    requesting the next frame and storing its handle. *)
Lemma updateAudioLevels_run env w :
  (exists e,
      browser env (trace w) recorder_recording = true /\
      sdk env (trace w ++ [EPrim recorder_recording true])
        recorder_getFrequencies = Throws e /\
      updateAudioLevels env w
      = (Thrown e,
         log_event (ECall recorder_getFrequencies (Throws e))
           (log_event (EPrim recorder_recording true) w))) \/
  (exists w1 pre handle,
      updateAudioLevels env w
      = (Normal tt,
         write_ref (write_animationFrameRef handle)
           (log_event
              (EPrim (requestAnimationFrame cb_updateAudioLevels) handle) w1)) /\
      trace w1 = trace w ++ pre /\
      no_throw pre = true /\
      existsb (is_request_frame cb_updateAudioLevels) pre = false).
Proof.
  unfold updateAudioLevels.
  rewrite bind_run, prim_run. cbv beta iota.
  destruct (browser env (trace w) recorder_recording) eqn:Hrec.
  - unfold mbind, M_bind. rewrite !bind_run, call_run.
    destruct (sdk env _ recorder_getFrequencies) as [[values|]|e] eqn:Hf.
    + right. cbv beta iota. rewrite !bind_run, get_run. cbv beta iota.
      rewrite bind_run.
      match goal with
      | |- context [mapM_index ?f 0%nat ?l ?w0] =>
          destruct (mapM_index_random_trace env
                      (activeLevel (average (amplify values))) l 0%nat w0)
            as (next & w' & pre & Hrun & Hui & Href & Htrace & Hno & Hreq)
      end.
      rewrite Hrun. run_straight.
      eexists _, (_ :: _ :: pre ++ [_]), _. split; [reflexivity|].
      split.
      * cbn [trace apply_set]. rewrite Htrace. cbn [trace log_event].
        rewrite <- !app_assoc. reflexivity.
      * split.
        -- change (no_throw (?a :: ?b :: ?l)) with (no_throw l).
           rewrite no_throw_app, Hno. reflexivity.
        -- cbn [existsb is_request_frame orb]. rewrite existsb_app, Hreq.
           reflexivity.
    + right. run_straight.
      eexists _, [_; _], _. split; [reflexivity|].
      split; [cbn [trace log_event]; rewrite <- !app_assoc; reflexivity|].
      split; reflexivity.
    + left. exists e. repeat split; reflexivity.
  - right. unfold mbind, M_bind. rewrite !bind_run, get_run. cbv beta iota.
    rewrite bind_run.
    match goal with
    | |- context [mapM_index ?f 0%nat ?l ?w0] =>
        destruct (mapM_index_random_trace env (fun _ => idleLevel) l 0%nat w0)
          as (next & w' & pre & Hrun & Hui & Href & Htrace & Hno & Hreq)
    end.
    rewrite Hrun. run_straight.
    eexists _, (_ :: pre ++ [_]), _. split; [reflexivity|].
    split.
    + cbn [trace apply_set]. rewrite Htrace. cbn [trace log_event].
      rewrite <- !app_assoc. reflexivity.
    + split.
      * change (no_throw (?a :: ?l)) with (no_throw l).
        rewrite no_throw_app, Hno. reflexivity.
      * cbn [existsb is_request_frame orb]. rewrite existsb_app, Hreq.
        reflexivity.
Qed.

Lemma no_throw_not_thrown evs ev c e :
  no_throw evs = true -> ev ∈ evs -> thrown ev = Some (c, e) -> False.
Proof.
  unfold no_throw. intros Hno Hin Hthrown.
  rewrite forallb_forall in Hno.
  apply list_elem_of_In in Hin. specialize (Hno ev Hin).
  destruct ev as [c' [a|e']| | | | |]; cbn in *; congruence.
Qed.

(** X6. A frame of [updateAudioLevels] that does not throw ends by
    requesting the next frame and storing its handle in
    [animationFrameRef].  The only call that can throw is
    [wavRecorder.getFrequencies]; then the levels and the ref are
    unchanged and no next frame is requested, so the loop stops. *)
Theorem updateAudioLevels_next_frame (env : Env) (w : World) :
  let r := updateAudioLevels env w in
  let evs := new_events w (snd r) in
  (no_throw evs = true ->
   exists handle,
     fst r = Normal tt /\
     last_events 2 evs
     = [EPrim (requestAnimationFrame cb_updateAudioLevels) handle;
        ERef (write_animationFrameRef handle)] /\
     animationFrameRef (snd r) = Some handle) /\
  (forall ev failing err,
      ev ∈ evs -> thrown ev = Some (failing, err) ->
      failing = recorder_getFrequencies /\
      fst r = Thrown err /\
      ui (snd r) = ui w /\
      animationFrameRef (snd r) = animationFrameRef w /\
      existsb (is_request_frame cb_updateAudioLevels) evs = false).
Proof.
  cbv zeta.
  destruct (updateAudioLevels_run env w)
    as [(e & Hrec & Hf & ->)|(w1 & pre & handle & -> & Htrace & Hno & Hreq)];
    cbn [fst snd].
  - rewrite (new_events_app w _
               [EPrim recorder_recording true;
                ECall recorder_getFrequencies (Throws e)])
      by (cbn [trace log_event]; rewrite <- app_assoc; reflexivity).
    split; [intros Hno; discriminate Hno|].
    intros ev failing err Hin Hthrown.
    split_elem_of Hin; try discriminate Hthrown.
    revert Hthrown; intros [= <- <-]. repeat split; reflexivity.
  - rewrite (new_events_app w _
               (pre ++ [EPrim (requestAnimationFrame cb_updateAudioLevels) handle;
                        ERef (write_animationFrameRef handle)]))
      by (cbn [trace write_ref log_event]; rewrite Htrace, <- !app_assoc;
          reflexivity).
    split.
    + intros _. exists handle. split; [reflexivity|].
      split; [|reflexivity].
      apply (last_events_app pre
               [EPrim (requestAnimationFrame cb_updateAudioLevels) handle;
                ERef (write_animationFrameRef handle)]).
    + intros ev failing err Hin Hthrown. exfalso.
      apply elem_of_app in Hin as [Hin|Hin].
      * exact (no_throw_not_thrown pre ev failing err Hno Hin Hthrown).
      * split_elem_of Hin; discriminate Hthrown.
Qed.

(** ** Audio levels: which random number goes where *)

Lemma random_answers_app l1 l2 :
  random_answers (l1 ++ l2) = random_answers l1 ++ random_answers l2.
Proof. apply omap_app. Qed.

Lemma random_answers_randoms rs :
  random_answers (map (fun random => EPrim Math_random random) rs) = rs.
Proof.
  induction rs as [|r rs IH]; [reflexivity|].
  change (r :: random_answers
                 (map (fun random => EPrim Math_random random) rs)
          = r :: rs).
  rewrite IH. reflexivity.
Qed.

(** The effectful map over the levels asks for one random number per
    entry and hands the i-th answer to the callback of the i-th entry. *)
Lemma mapM_index_answers env (g : nat -> Q -> AudioLevel -> AudioLevel) l :
  forall index w,
  exists rs w',
    mapM_index
      (fun index level =>
         random <~ prim env Math_random; ret (g index random level))
      index l w = (Normal (levels_from g index l rs), w') /\
    length rs = length l /\
    Forall (fun random => exists h, random = browser env h Math_random) rs /\
    trace w' = trace w ++ map (fun random => EPrim Math_random random) rs.
Proof.
  induction l as [|x xs IH]; intros index w.
  - exists [], w. cbn. rewrite app_nil_r. repeat split; constructor.
  - cbn [mapM_index]. rewrite !bind_run, prim_run. cbv beta iota.
    rewrite ret_run.
    destruct (IH (S index) (log_event (EPrim Math_random
                                (browser env (trace w) Math_random)) w))
      as (rs & w' & Hrun & Hlen & Hfrom & Htrace).
    rewrite bind_run, Hrun.
    exists (browser env (trace w) Math_random :: rs), w'.
    split; [reflexivity|]. split; [cbn; rewrite Hlen; reflexivity|].
    split; [constructor; [eexists; reflexivity|exact Hfrom]|].
    rewrite Htrace. cbn [trace log_event map]. rewrite <- app_assoc.
    reflexivity.
Qed.

Lemma levels_from_lookup (g : nat -> Q -> AudioLevel -> AudioLevel) l :
  forall index rs i b random,
    levels_from g index l rs !! i = Some b ->
    rs !! i = Some random ->
    exists a, l !! i = Some a /\ b = g (index + i)%nat random a.
Proof.
  induction l as [|a l IH]; intros index rs i b random Hb Hr.
  - discriminate Hb.
  - destruct rs as [|r rs]; [discriminate Hb|].
    destruct i as [|i]; cbn in Hb, Hr.
    + injection Hb as <-. injection Hr as <-. exists a.
      rewrite Nat.add_0_r. split; reflexivity.
    + destruct (IH _ _ _ _ _ Hb Hr) as (a' & Ha & ->).
      exists a'. split; [exact Ha|]. f_equal. lia.
Qed.

(** The levels after a frame in terms of the random numbers of the
    frame. *)
Lemma updateAudioLevels_answers env w :
  let r := updateAudioLevels env w in
  let prev := audioLevels (ui w) in
  let next := audioLevels (ui (snd r)) in
  let randoms := random_answers (new_events w (snd r)) in
  let recording := browser env (trace w) recorder_recording in
  let frequencies :=
    sdk env (trace w ++ [EPrim recorder_recording true])
      recorder_getFrequencies in
  Forall (fun random => exists h, random = browser env h Math_random)
    randoms /\
  (recording = true ->
   forall values, frequencies = Returns (Some values) ->
     length randoms = length prev /\
     next = levels_from (activeLevel (average (amplify values))) 0 prev
              randoms) /\
  (recording = true ->
   (forall values, frequencies <> Returns (Some values)) -> next = prev) /\
  (recording = false ->
   length randoms = length prev /\
   next = levels_from (fun _ => idleLevel) 0 prev randoms).
Proof.
  cbv zeta. unfold updateAudioLevels.
  rewrite bind_run, prim_run. cbv beta iota.
  destruct (browser env (trace w) recorder_recording) eqn:Hrec.
  - unfold mbind, M_bind. rewrite !bind_run, call_run.
    cbn [trace log_event].
    destruct (sdk env _ recorder_getFrequencies) as [[values|]|e] eqn:Hf.
    + cbv beta iota. rewrite !bind_run, get_run. cbv beta iota.
      rewrite bind_run.
      match goal with
      | |- context [mapM_index ?f 0%nat ?l ?w0] =>
          destruct (mapM_index_answers env
                      (activeLevel (average (amplify values))) l 0%nat w0)
            as (rs & w' & Hrun & Hlen & Hfrom & Htrace)
      end.
      rewrite Hrun. run_straight.
      cbn [snd ui write_ref log_event apply_set].
      rewrite audioLevels_applySetter_levels.
      erewrite (new_events_app w)
        by (cbn [trace write_ref log_event apply_set]; rewrite Htrace;
            cbn [trace log_event]; rewrite <- !app_assoc; reflexivity).
      cbn [app].
      change (random_answers (?a :: ?b :: ?l)) with (random_answers l).
      rewrite random_answers_app, random_answers_randoms. cbn.
      rewrite app_nil_r.
      split; [exact Hfrom|]. split; [|split; [|discriminate]].
      * intros _ values' [= <-]. split; [exact Hlen|reflexivity].
      * intros _ Hnone. exfalso. exact (Hnone values eq_refl).
    + run_straight. cbn [snd].
      erewrite (new_events_app w)
        by (cbn [trace write_ref log_event apply_set];
            rewrite <- !app_assoc; reflexivity).
      split; [constructor|]. split; [|split; [|discriminate]].
      * intros _ values' Hsome. discriminate Hsome.
      * intros _ _. reflexivity.
    + cbn [snd].
      erewrite (new_events_app w)
        by (cbn [trace write_ref log_event apply_set];
            rewrite <- !app_assoc; reflexivity).
      split; [constructor|]. split; [|split; [|discriminate]].
      * intros _ values' Hsome. discriminate Hsome.
      * intros _ _. reflexivity.
  - unfold mbind, M_bind. rewrite !bind_run, get_run. cbv beta iota.
    rewrite bind_run.
    match goal with
    | |- context [mapM_index ?f 0%nat ?l ?w0] =>
        destruct (mapM_index_answers env (fun _ => idleLevel) l 0%nat w0)
          as (rs & w' & Hrun & Hlen & Hfrom & Htrace)
    end.
    rewrite Hrun. run_straight.
    cbn [snd ui write_ref log_event apply_set].
    rewrite audioLevels_applySetter_levels.
    erewrite (new_events_app w)
      by (cbn [trace write_ref log_event apply_set]; rewrite Htrace;
          cbn [trace log_event]; rewrite <- !app_assoc; reflexivity).
    cbn [app].
    change (random_answers (?a :: ?l)) with (random_answers l).
    rewrite random_answers_app, random_answers_randoms. cbn.
    rewrite app_nil_r.
    split; [exact Hfrom|]. split; [discriminate|]. split; [discriminate|].
    intros _. split; [exact Hlen|reflexivity].
Qed.

Lemma levels_from_length (g : nat -> Q -> AudioLevel -> AudioLevel) l :
  forall index rs, length rs = length l ->
    length (levels_from g index l rs) = length l.
Proof.
  induction l as [|a l IH]; intros index rs Hlen; [reflexivity|].
  destruct rs as [|r rs]; [discriminate Hlen|].
  cbn. rewrite IH by (cbn in Hlen; lia). reflexivity.
Qed.

(** X26. With [Math.random()] in the unit interval and a recorder whose
    frequency array is never empty, every frame of [updateAudioLevels]
    keeps the ids of the entries, in order, and keeps every level between
    20 and 100.  While the recorder is recording and returns frequencies,
    entry [i] gets the base level [average * 150 + i * 10] clamped into
    that interval, plus [random * 20 - 10], clamped again, where [random]
    is the i-th number [Math.random()] returned in the frame; without
    frequencies the levels stay as they are.  While it is not recording,
    entry [i] gets [20 + random * 5], below 25. *)
Theorem updateAudioLevels_levels (env : Env) (w : World) :
  random_unit env ->
  frequencies_nonempty env ->
  let r := updateAudioLevels env w in
  let prev := audioLevels (ui w) in
  let next := audioLevels (ui (snd r)) in
  let randoms := random_answers (new_events w (snd r)) in
  let recording := browser env (trace w) recorder_recording in
  let frequencies :=
    sdk env (trace w ++ [EPrim recorder_recording true])
      recorder_getFrequencies in
  map id next = map id prev /\
  (levels_ok prev -> levels_ok next) /\
  (recording = true ->
   forall values, frequencies = Returns (Some values) ->
   exists avg,
     average (amplify values) = Num avg /\
     length randoms = length next /\
     forall i b random,
       next !! i = Some b -> randoms !! i = Some random ->
       level b
       = Num (clamp (clamp (avg * 150 + inject_Z (Z.of_nat i) * 10)
                     + (random * 20 - 10)))) /\
  (recording = true ->
   (forall values, frequencies <> Returns (Some values)) -> next = prev) /\
  (recording = false ->
   length randoms = length next /\
   forall i b random,
     next !! i = Some b -> randoms !! i = Some random ->
     level b = Num (20 + random * 5) /\
     (20 <= 20 + random * 5 /\ 20 + random * 5 < 25)%Q).
Proof.
  intros Hrandom Hnonempty. cbv zeta.
  pose proof (updateAudioLevels_cases env w) as Hcases. cbv zeta in Hcases.
  destruct (updateAudioLevels_answers env w)
    as (Hfrom & Hactive & Hnone & Hidle).
  cbv zeta in Hfrom, Hactive, Hnone, Hidle.
  assert (Hids : map id (audioLevels (ui (snd (updateAudioLevels env w))))
                 = map id (audioLevels (ui w))).
  { destruct Hcases as [(_ & _ & ->)|[(_ & values & _ & Hall)|(_ & Hall)]].
    - reflexivity.
    - eapply Forall2_ids; [|exact Hall].
      intros a b (i & h & ->). reflexivity.
    - eapply Forall2_ids; [|exact Hall].
      intros a b (i & h & ->). reflexivity. }
  split; [exact Hids|]. split; [|split; [|split]].
  - intros [Hprev Hrange]. split; [rewrite Hids; exact Hprev|].
    destruct Hcases as [(_ & _ & ->)|[(_ & values & Hf & Hall)|(_ & Hall)]].
    + exact Hrange.
    + destruct (average_amplify values (Hnonempty _ _ Hf)) as (q & Hq).
      eapply Forall2_right; [|exact Hall].
      intros a b (i & h & ->). rewrite Hq. cbn [level activeLevel].
      unfold num_add at 1. cbn [num_lift2 Math_min Math_max num_add num_mul].
      apply clamp_in_range.
    + eapply Forall2_right; [|exact Hall].
      intros a b (i & h & ->). apply idleLevel_range, Hrandom.
  - intros Hrec values Hf.
    destruct (Hactive Hrec values Hf) as (Hlen & Hnext).
    destruct (average_amplify values (Hnonempty _ _ Hf)) as (avg & Havg).
    exists avg. split; [exact Havg|]. split.
    + rewrite Hnext, levels_from_length by exact Hlen.
      exact Hlen.
    + intros i b random Hb Hr. rewrite Hnext in Hb.
      destruct (levels_from_lookup _ _ _ _ _ _ _ Hb Hr) as (a & _ & ->).
      rewrite Havg. reflexivity.
  - exact Hnone.
  - intros Hrec. destruct (Hidle Hrec) as (Hlen & Hnext). split.
    + rewrite Hnext, levels_from_length by exact Hlen.
      exact Hlen.
    + intros i b random Hb Hr. rewrite Hnext in Hb.
      destruct (levels_from_lookup _ _ _ _ _ _ _ Hb Hr) as (a & _ & ->).
      split; [reflexivity|].
      rewrite Forall_forall in Hfrom.
      destruct (Hfrom random) as (h & ->).
      { apply list_elem_of_lookup. exists i. exact Hr. }
      destruct (Hrandom h) as [H0 H1]. split; lra.
Qed.

(** ** The render loop *)

(** X7. [render] has no [try].  A frame of a loaded effect in which no
    call throws ends by requesting the next [render] frame.  When a call
    of the frame throws ([getFrequencies] of the recorder or the player, or
    [WavRenderer.drawBars]), the frame ends at that call with its error and
    has requested no frame, so the drawing loop stops. *)
Theorem render_throw_ends_loop (env : Env) (w : World) :
  let r := render env w in
  let evs := new_events w (snd r) in
  (no_throw evs = true ->
   fst r = Normal tt /\
   (isLoaded (renderState w) = true ->
    exists handle,
      last evs = Some (EPrim (requestAnimationFrame cb_render) handle))) /\
  (forall ev failing err,
      ev ∈ evs -> thrown ev = Some (failing, err) ->
      fst r = Thrown err /\
      last evs = Some ev /\
      existsb (is_request_frame cb_render) evs = false).
Proof.
  cbv zeta. destruct w as [u frame start storage rs tr].
  destruct rs as [loaded canvasC canvasS cachedC cachedS].
  destruct (render env _) as [r w'] eqn:Hrun.
  revert Hrun. unfold render.
  cbn [renderState isLoaded].
  destruct loaded, canvasC, canvasS, cachedC, cachedS.
  all: repeat step.
  all: intros [= <- <-]; cbn [fst snd].
  all: try (unfold new_events; cbn [trace]; rewrite drop_all;
            split; [intros _; split; [reflexivity|discriminate]|];
            intros ev failing err Hin; apply elem_of_nil in Hin; destruct Hin).
  all: events_of_run.
  all: destruct_units.
  all: split;
    [intros Hno;
     first [ discriminate Hno
           | split; [reflexivity|intros _; eexists; reflexivity] ]
    |].
  all: intros ev failing err Hin Hthrown.
  all: split_elem_of Hin; try discriminate Hthrown.
  all: revert Hthrown; intros [= <- <-].
  all: repeat split; reflexivity.
Qed.

(** X8. [changeTurnEndType] takes any string.  When nothing throws, a
    connected client gets [turn_detection: null] for 'none' and server VAD
    for every other value, the recorder is restarted (after the 100 ms
    wait) only for the value 'server_vad', and [canPushToTalk] ends as
    [value === 'none']. *)
Theorem changeTurnEndType_any_value (env : Env) (value : string) (w : World) :
  let r := changeTurnEndType env value w in
  let evs := new_events w (snd r) in
  no_throw evs = true ->
  exists status connected,
    evs = pause_events status
          ++ ECall client_isConnected (Returns connected)
             :: (if connected
                 then ECall (client_updateSession
                               (if String.eqb value "none" then td_null
                                else td_server_vad)) (Returns tt)
                      :: (if String.eqb value "server_vad"
                          then [EPrim (setTimeout_promise 100) tt;
                                ECall (recorder_record append_if_connected)
                                  (Returns tt)]
                          else [])
                 else [])
          ++ [ESet (setCanPushToTalk (String.eqb value "none"))] /\
    canPushToTalk (ui (snd r)) = String.eqb value "none".
Proof.
  cbv zeta.
  destruct (changeTurnEndType env value w) as [r w'] eqn:Hrun.
  revert Hrun. unfold changeTurnEndType.
  destruct (String.eqb value "none") eqn:Hnone;
    destruct (String.eqb value "server_vad") eqn:Hvad.
  all: repeat step.
  all: intros [= <- <-]; cbn [fst snd]; events_of_run.
  all: intros Hno; try discriminate Hno.
  all: destruct_units.
  all: match goal with
       | H : is_recording ?st = _ |- _ =>
           exists st; unfold pause_events; rewrite H
       end.
  all: match goal with
       | H : sdk _ _ client_isConnected = Returns ?b |- _ => exists b
       end.
  all: split; [reflexivity|cbn; destruct (ui w); reflexivity].
Qed.

(** ** API key: reading back what was written *)

Lemma nonempty_Some_inv x k :
  nonempty x = Some k -> x = Some k /\ String.eqb k "" = false.
Proof.
  unfold nonempty. destruct x as [y|]; [|discriminate].
  destruct (String.eqb y "") eqn:Hy; [discriminate|].
  intros [= <-]. split; [reflexivity|exact Hy].
Qed.

Lemma nonempty_intro k :
  String.eqb k "" = false -> nonempty (Some k) = Some k.
Proof. intros H. unfold nonempty. rewrite H. reflexivity. Qed.

(** With a usable key in the storage, [apiKey] returns it, writes it back
    and does not prompt. *)
Lemma apiKey_stored env w k :
  nonempty (localStorage w !! api_key_entry) = Some k ->
  apiKey env "" w
  = (Normal k,
     with_storage (<[api_key_entry := k]> (localStorage w))
       (storage_setItem api_key_entry k)
       (with_storage (localStorage w) (storage_getItem api_key_entry) w)).
Proof.
  intros Hstored.
  destruct (nonempty_Some_inv _ _ Hstored) as [_ Hk].
  unfold apiKey. change (negb (String.eqb "" "")) with false.
  cbv iota. fold api_key_entry.
  repeat step. rewrite Hstored. repeat step.
  all: try match goal with
           | H : negb _ = false |- _ => rewrite Hk in H; discriminate H
           end.
  all: reflexivity.
Qed.

(** A non-empty result of [apiKey] is in the storage afterwards. *)
Lemma apiKey_written env w k :
  fst (apiKey env "" w) = Normal k ->
  String.eqb k "" = false ->
  localStorage (snd (apiKey env "" w)) !! api_key_entry = Some k.
Proof.
  unfold apiKey. change (negb (String.eqb "" "")) with false.
  cbv iota. fold api_key_entry. repeat step.
  destruct (nonempty (localStorage w !! api_key_entry)) eqn:Hst; repeat step.
  all: cbn [fst snd]; intros Heq Hk; injection Heq as Heq.
  all: try (rewrite <- Heq in Hk).
  all: try match goal with
           | H : negb _ = false |- _ => rewrite Hk in H; discriminate H
           end.
  all: subst k.
  all: cbn [localStorage with_storage]; apply lookup_insert_eq.
Qed.

(** X9. Once [apiKey] has produced a non-empty key, computing it again
    (the next render, or after a reload) gives the same key without a
    prompt: it reads the storage, writes the same entry back and leaves the
    storage as it was. *)
Theorem apiKey_second_run (env env' : Env) (w : World) (k : string) :
  fst (apiKey env "" w) = Normal k ->
  k <> ""%string ->
  let w1 := snd (apiKey env "" w) in
  let r2 := apiKey env' "" w1 in
  fst r2 = Normal k /\
  new_events w1 (snd r2)
  = [EStorage (storage_getItem api_key_entry);
     EStorage (storage_setItem api_key_entry k)] /\
  localStorage (snd r2) = localStorage w1.
Proof.
  intros Hkey Hne. cbv zeta.
  assert (String.eqb k "" = false) as Hk.
  { destruct (String.eqb k "") eqn:E; [|reflexivity].
    apply String.eqb_eq in E. contradiction. }
  pose proof (apiKey_written env w k Hkey Hk) as Hstored.
  rewrite (apiKey_stored env' _ k)
    by (rewrite Hstored; apply nonempty_intro, Hk).
  cbn [fst snd]. split; [reflexivity|]. split.
  - apply new_events_app. cbn [trace with_storage].
    rewrite <- app_assoc. reflexivity.
  - cbn [localStorage with_storage]. apply insert_id, Hstored.
Qed.

(** X10. After [resetAPIKey] with an answered prompt, the storage holds the
    entered key and nothing else.  A non-empty key is what [apiKey] then
    returns, without a prompt; an empty answer is stored as well, but
    [apiKey] treats it as missing and prompts again. *)
Theorem resetAPIKey_then_apiKey (env env' : Env) (w : World) (k : string) :
  browser env (trace w) (prompt "OpenAI API Key") = Some k ->
  let w1 := snd (resetAPIKey env w) in
  let r2 := apiKey env' "" w1 in
  (forall entry, entry <> api_key_entry -> localStorage w1 !! entry = None) /\
  localStorage w1 !! api_key_entry = Some k /\
  (k <> ""%string ->
   fst r2 = Normal k /\
   new_events w1 (snd r2)
   = [EStorage (storage_getItem api_key_entry);
      EStorage (storage_setItem api_key_entry k)]) /\
  (k = ""%string ->
   new_events w1 (snd r2)
   = EStorage (storage_getItem api_key_entry)
     :: EPrim (prompt "OpenAI API Key")
          (browser env'
             (trace w1 ++ [EStorage (storage_getItem api_key_entry)])
             (prompt "OpenAI API Key"))
     :: match nonempty
                (browser env'
                   (trace w1 ++ [EStorage (storage_getItem api_key_entry)])
                   (prompt "OpenAI API Key")) with
        | Some k' => [EStorage (storage_setItem api_key_entry k')]
        | None => []
        end).
Proof.
  intros Hprompt. cbv zeta.
  assert (Hw1 : localStorage (snd (resetAPIKey env w))
                = {[ api_key_entry := k ]}).
  { unfold resetAPIKey. rewrite bind_run, prim_run. cbv beta iota.
    rewrite Hprompt. unfold mbind, M_bind, localStorage_clear,
      localStorage_setItem. run_straight. reflexivity. }
  split; [|split; [|split]].
  - intros entry Hentry. rewrite Hw1. apply lookup_singleton_ne. congruence.
  - rewrite Hw1. apply lookup_singleton_eq.
  - intros Hne.
    assert (String.eqb k "" = false) as Hk.
    { destruct (String.eqb k "") eqn:E; [|reflexivity].
      apply String.eqb_eq in E. contradiction. }
    rewrite (apiKey_stored env' _ k)
      by (rewrite Hw1, lookup_singleton_eq; apply nonempty_intro, Hk).
    cbn [fst snd]. split; [reflexivity|].
    apply new_events_app. cbn [trace with_storage].
    rewrite <- app_assoc. reflexivity.
  - intros ->.
    unfold apiKey. change (negb (String.eqb "" "")) with false.
    cbv iota. fold api_key_entry.
    rewrite bind_run, bind_run. unfold localStorage_getItem at 1.
    cbv beta iota. rewrite Hw1, lookup_singleton_eq.
    change (nonempty (Some ""%string)) with (@None string). cbv iota.
    rewrite bind_run, prim_run. cbv beta iota. rewrite ret_run.
    cbn [trace with_storage].
    destruct (nonempty (browser env' _ (prompt "OpenAI API Key")))
      as [k'|] eqn:Hentered.
    + destruct (nonempty_Some_inv _ _ Hentered) as [_ Hk'].
      change (default ""%string (Some k')) with k'.
      unfold mbind, M_bind. rewrite bind_run.
      unfold when. rewrite Hk'. cbn [negb].
      unfold localStorage_setItem. cbv beta iota. rewrite ret_run.
      cbn [snd]. apply new_events_app.
      cbn [trace with_storage log_event]. rewrite <- !app_assoc. reflexivity.
    + change (default ""%string (@None string)) with ""%string.
      unfold mbind, M_bind. rewrite bind_run.
      unfold when. change (negb (String.eqb "" "")) with false. cbv iota.
      rewrite ret_run. cbv beta iota. rewrite ret_run.
      cbn [snd]. apply new_events_app.
      cbn [trace with_storage log_event]. rewrite <- !app_assoc. reflexivity.
Qed.

(** ** Event log: counts *)

Lemma sum_counts_app l1 l2 : sum_counts (l1 ++ l2) = sum_counts l1 + sum_counts l2.
Proof.
  induction l1 as [|a l1 IH]; cbn; [reflexivity|].
  unfold sum_counts in *. cbn. rewrite IH. lia.
Qed.

Lemma appendRealtimeEvent_cases r prev :
  appendRealtimeEvent r prev = prev ++ [with_count 1 r] \/
  exists ps le,
    prev = ps ++ [le] /\
    appendRealtimeEvent r prev = ps ++ [with_count (count_or_1 le + 1) le].
Proof.
  unfold appendRealtimeEvent.
  destruct prev as [|le ps _] using rev_ind.
  - left. cbn. reflexivity.
  - rewrite last_snoc.
    destruct (truthy (event_type (Some le)) && truthy (event_type (Some r))
              && strict_eq (event_type (Some le)) (event_type (Some r))).
    + right. exists ps, le. rewrite removelast_last. split; reflexivity.
    + left. reflexivity.
Qed.

Lemma appendRealtimeEvent_counts r prev :
  counted prev ->
  counted (appendRealtimeEvent r prev) /\
  sum_counts (appendRealtimeEvent r prev) = sum_counts prev + 1.
Proof.
  intros Hprev.
  destruct (appendRealtimeEvent_cases r prev) as [->|(ps & le & -> & ->)].
  - split.
    + apply Forall_app. split; [exact Hprev|].
      constructor; [|constructor]. exists 1. split; [reflexivity|lia].
    + rewrite sum_counts_app. reflexivity.
  - apply Forall_app in Hprev as [Hps Hle].
    apply Forall_cons in Hle as [(c & Hc & Hpos) _].
    assert (count_or_1 le = c) as Hcount.
    { unfold count_or_1. rewrite Hc.
      destruct (c =? 0) eqn:E; [apply Z.eqb_eq in E; lia|reflexivity]. }
    split.
    + apply Forall_app. split; [exact Hps|].
      constructor; [|constructor]. exists (c + 1).
      rewrite Hcount. split; [reflexivity|lia].
    + rewrite !sum_counts_app. unfold sum_counts. cbn. rewrite Hc, Hcount.
      cbn. lia.
Qed.

Lemma deliver_counts msgs : forall w,
  counted (realtimeEvents (ui w)) ->
  counted (realtimeEvents (ui (deliver msgs w))) /\
  sum_counts (realtimeEvents (ui (deliver msgs w)))
  = sum_counts (realtimeEvents (ui w)) + valid_messages msgs.
Proof.
  induction msgs as [|m ms IH]; intros w Hw.
  - cbn. split; [exact Hw|]. unfold valid_messages. cbn. lia.
  - cbn [deliver foldl].
    change (foldl (fun w msg => snd (onRealtimeEvent msg w))
              (snd (onRealtimeEvent m w)) ms)
      with (deliver ms (snd (onRealtimeEvent m w))).
    assert (Hstep :
      counted (realtimeEvents (ui (snd (onRealtimeEvent m w)))) /\
      sum_counts (realtimeEvents (ui (snd (onRealtimeEvent m w))))
      = sum_counts (realtimeEvents (ui w))
        + Z.of_nat (length (omap valid_event [m]))).
    { rewrite onRealtimeEvent_realtimeEvents. unfold onRealtimeEvent_list.
      cbn [omap list_omap]. destruct (valid_event m) as [r|].
      - cbn [length app]. apply appendRealtimeEvent_counts, Hw.
      - cbn. split; [exact Hw|lia]. }
    destruct Hstep as [Hc Hs].
    destruct (IH _ Hc) as [Hc' Hs'].
    split; [exact Hc'|]. rewrite Hs', Hs. unfold valid_messages.
    change (m :: ms) with ([m] ++ ms).
    rewrite omap_app, length_app. lia.
Qed.

(** X11. Starting from the empty log, the counts of the log add up to the
    number of delivered events that passed the guard of the handler; every
    entry has a count of at least one, so the log is never longer than
    that number. *)
Theorem event_log_counts_every_event (msgs : list (option RealtimeEvent)) :
  let log := realtimeEvents (ui (deliver msgs initialWorld)) in
  sum_counts log = valid_messages msgs /\
  counted log /\
  Z.of_nat (length log) <= valid_messages msgs.
Proof.
  cbv zeta.
  destruct (deliver_counts msgs initialWorld) as [Hc Hs]; [constructor|].
  split; [rewrite Hs; reflexivity|]. split; [exact Hc|].
  rewrite <- (Z.add_0_l (valid_messages msgs)).
  change 0 with (sum_counts (realtimeEvents (ui initialWorld))) at 1.
  rewrite <- Hs. clear Hs.
  induction Hc as [|r l (c & Hc & Hpos) _ IH]; [reflexivity|].
  unfold sum_counts in *. cbn. rewrite Hc. cbn. lia.
Qed.

(** X12. One delivery grows the log by at most one entry and never shrinks
    it; the entries before the last are untouched, and the last one can
    only change in its count. *)
Theorem event_log_entries_stay (msg : option RealtimeEvent) (w : World) :
  let prev := realtimeEvents (ui w) in
  let next := realtimeEvents (ui (snd (onRealtimeEvent msg w))) in
  (length prev <= length next <= S (length prev))%nat /\
  map without_count (take (length prev) next) = map without_count prev /\
  take (length prev - 1) next = take (length prev - 1) prev.
Proof.
  cbv zeta. rewrite onRealtimeEvent_realtimeEvents.
  unfold onRealtimeEvent_list.
  destruct (valid_event msg) as [r|].
  - destruct (appendRealtimeEvent_cases r (realtimeEvents (ui w)))
      as [->|(ps & le & -> & ->)].
    + rewrite length_app. cbn. split; [lia|].
      rewrite take_app_length. split; [reflexivity|].
      rewrite take_app_le by lia. reflexivity.
    + rewrite !length_app. cbn. split; [lia|].
      replace (length ps + 1)%nat with (length (ps ++ [with_count (count_or_1 le + 1) le]))
        by (rewrite length_app; reflexivity).
      rewrite firstn_all. split.
      * rewrite !map_app. reflexivity.
      * rewrite length_app. cbn.
        replace (length ps + 1 - 1)%nat with (length ps) by lia.
        rewrite !take_app_length. reflexivity.
  - split; [lia|]. rewrite firstn_all. split; reflexivity.
Qed.

(** ** Memory store: what a write stores, and how writes compose *)

(** X25. For every key other than ['__proto__'] and every value, the
    [set_memory] handler returns [{ ok: true }], the key maps to the value
    afterwards, and every other key maps to what it mapped to before. *)
Theorem set_memory_stores (key : string) (value : JsVal) (w : World) :
  key <> "__proto__"%string ->
  fst (set_memory key value w) = Normal {[ "ok"%string := VBool true ]} /\
  memoryKv (ui (snd (set_memory key value w))) !! key = Some value /\
  (forall k, k <> key ->
     memoryKv (ui (snd (set_memory key value w))) !! k
     = memoryKv (ui w) !! k).
Proof.
  intros Hkey.
  unfold set_memory. unfold_monad. cbn. destruct (ui w); cbn.
  unfold set_memory_update.
  destruct (String.eqb_spec key "__proto__") as [->|_]; [contradiction|].
  split; [reflexivity|]. split.
  - apply lookup_insert_eq.
  - intros k Hk. apply lookup_insert_ne. congruence.
Qed.


(** X13. Writes of [set_memory] under keys other than ['__proto__'], read
    as a map of own properties: a second write to a key overrides the
    first, writes to different keys commute, and writing the value a key
    already has changes nothing. *)
Theorem set_memory_composes (k1 k2 : string) (v1 v2 : JsVal) (w : World) :
  k1 <> "__proto__"%string ->
  k2 <> "__proto__"%string ->
  let after a b := memoryKv (ui (snd (b (snd (a w))))) in
  after (set_memory k1 v1) (set_memory k1 v2)
  = memoryKv (ui (snd (set_memory k1 v2 w))) /\
  (k1 <> k2 ->
   after (set_memory k1 v1) (set_memory k2 v2)
   = after (set_memory k2 v2) (set_memory k1 v1)) /\
  (memoryKv (ui w) !! k1 = Some v1 ->
   memoryKv (ui (snd (set_memory k1 v1 w))) = memoryKv (ui w)).
Proof.
  intros Hk1 Hk2. cbv zeta. unfold set_memory. unfold_monad. cbn.
  destruct (ui w); cbn. unfold set_memory_update.
  destruct (String.eqb_spec k1 "__proto__") as [->|_]; [contradiction|].
  destruct (String.eqb_spec k2 "__proto__") as [->|_]; [contradiction|].
  split; [apply insert_insert_eq|]. split.
  - intros Hne. apply insert_insert_ne. congruence.
  - apply insert_id.
Qed.

(** ** formatTime *)

Example toString_examples :
  toString 0 = "0"%string /\ toString 7 = "7"%string /\
  toString 42 = "42"%string /\ toString (-5) = "-5"%string /\
  toString 123 = "123"%string.
Proof. repeat split; reflexivity. Qed.

Example formatTime_examples :
  formatTime 1000 1000 = "00:00.00"%string /\
  formatTime 0 83450 = "01:23.45"%string /\
  formatTime 0 3599999 = "59:59.99"%string /\
  formatTime 0 3600000 = "00:00.00"%string /\
  formatTime 50 0 = "-1:-1.-5"%string /\
  formatTime (-8640000000000000) 8639999999999999 = "00:00.00"%string.
Proof. repeat split; vm_compute; reflexivity. Qed.

Lemma pad_loop_long fuel s : (2 <= String.length s)%nat -> pad_loop fuel s = s.
Proof.
  intros Hlen. destruct fuel as [|fuel]; [reflexivity|]. cbn [pad_loop].
  destruct (Nat.ltb_spec (String.length s) 2); [lia|reflexivity].
Qed.

Lemma pad_loop_length fuel s :
  (2 <= fuel + String.length s)%nat -> (2 <= String.length (pad_loop fuel s))%nat.
Proof.
  revert s. induction fuel as [|fuel IH]; intros s Hlen; cbn [pad_loop].
  - exact Hlen.
  - destruct (Nat.ltb_spec (String.length s) 2) as [Hlt|Hge]; [|exact Hge].
    apply IH.
    assert (String.length ("0" +:+ s) = S (String.length s)) as ->
      by reflexivity.
    lia.
Qed.

Lemma pad_loop_fuel k s : pad_loop (2 + k) s = pad_loop 2 s.
Proof.
  destruct s as [|c1 [|c2 s]].
  - change (pad_loop k "00" = "00"%string). apply pad_loop_long. reflexivity.
  - change (pad_loop (S k) (String "0" (String c1 "")) = String "0" (String c1 "")).
    apply pad_loop_long. reflexivity.
  - reflexivity.
Qed.

(** X14. The [while] loop of [pad] is done after at most two rounds, for
    every number: more rounds change nothing.  The result has at least two
    characters; a longer string is returned as it is, a single character
    gets one '0' in front. *)
Theorem pad_loop_terminates (n : Z) (k : nat) :
  pad_loop (2 + k) (toString n) = pad n /\
  (2 <= String.length (pad n))%nat /\
  ((2 <= String.length (toString n))%nat -> pad n = toString n) /\
  (String.length (toString n) = 1%nat -> pad n = ("0" +:+ toString n)%string).
Proof.
  split; [apply pad_loop_fuel|]. split; [apply pad_loop_length; lia|].
  split; [apply pad_loop_long|].
  unfold pad. destruct (toString n) as [|c [|c' s]]; try discriminate.
  reflexivity.
Qed.

Lemma pad_below_100_nat (k : nat) :
  (k < 100)%nat -> pad (Z.of_nat k) = two_digits (Z.of_nat k).
Proof.
  intros Hk.
  do 100 (destruct k as [|k]; [vm_compute; reflexivity|]).
  lia.
Qed.

Lemma pad_below_100 (n : Z) : 0 <= n < 100 -> pad n = two_digits n.
Proof.
  intros Hn. rewrite <- (Z2Nat.id n) by lia.
  apply pad_below_100_nat. lia.
Qed.

(** Bounds of a remainder by a positive constant. *)
Ltac mod_bound :=
  match goal with
  | |- 0 <= ?x mod ?d < _ => pose proof (Z.mod_pos_bound x d); lia
  end.

(** Rounding keeps the sign and leaves an integer of at most 53 bits as
    it is. *)
Lemma to_double_nonneg n : 0 <= n -> 0 <= to_double n.
Proof.
  intros Hn. unfold to_double.
  destruct (Z.log2 (Z.abs n) <=? 52) eqn:He; [exact Hn|].
  apply Z.leb_gt in He.
  assert (0 < 2 ^ (Z.log2 (Z.abs n) - 52)) as Hu
    by (apply Z.pow_pos_nonneg; lia).
  unfold round_half_even.
  pose proof (Z.div_pos n _ Hn Hu) as Hq.
  repeat match goal with
         | |- context [if ?c then _ else _] => destruct c
         end; nia.
Qed.

Lemma to_double_exact n : Z.abs n < 2 ^ 53 -> to_double n = n.
Proof.
  intros Hn. unfold to_double.
  destruct (Z.eq_dec (Z.abs n) 0) as [Hz|Hz].
  - rewrite Hz. reflexivity.
  - assert (Z.log2 (Z.abs n) < 53) as He
      by (apply Z.log2_lt_pow2; lia).
    destruct (Z.leb_spec (Z.log2 (Z.abs n)) 52); [reflexivity|lia].
Qed.

Lemma formatTime_fields startTime timestamp :
  0 <= timestamp - startTime ->
  formatTime startTime timestamp
  = (two_digits (minutes_of (timestamp - startTime)) +:+ ":"
     +:+ two_digits (seconds_of (timestamp - startTime)) +:+ "."
     +:+ two_digits (hundredths_of (timestamp - startTime)))%string.
Proof.
  intros Hdelta. unfold formatTime, minutes_of, seconds_of, hundredths_of.
  cbv zeta. pose proof (to_double_nonneg _ Hdelta) as Hd.
  rewrite !Z.rem_mod_nonneg by (try apply Z.div_pos; lia).
  rewrite !pad_below_100 by mod_bound.
  reflexivity.
Qed.

(** X15. For a timestamp not before the start time, [formatTime] gives
    [mm:ss.hh] with exactly two digits per field, eight characters in all:
    minutes and seconds below 60, hundredths below 100. *)
Theorem formatTime_format (startTime timestamp : Z) :
  0 <= timestamp - startTime ->
  let delta := timestamp - startTime in
  formatTime startTime timestamp
  = (two_digits (minutes_of delta) +:+ ":" +:+ two_digits (seconds_of delta)
     +:+ "." +:+ two_digits (hundredths_of delta))%string /\
  String.length (formatTime startTime timestamp) = 8%nat /\
  0 <= minutes_of delta < 60 /\
  0 <= seconds_of delta < 60 /\
  0 <= hundredths_of delta < 100.
Proof.
  intros Hdelta. cbv zeta.
  rewrite formatTime_fields by exact Hdelta.
  split; [reflexivity|]. split; [reflexivity|].
  unfold minutes_of, seconds_of, hundredths_of.
  repeat split; apply Z.mod_pos_bound; lia.
Qed.

Lemma fields_of_bucket delta :
  0 <= delta < 2 ^ 53 ->
  minutes_of delta = (delta / 10 / 6000) mod 60 /\
  seconds_of delta = (delta / 10 / 100) mod 60 /\
  hundredths_of delta = (delta / 10) mod 100.
Proof.
  intros Hd. unfold minutes_of, seconds_of, hundredths_of.
  rewrite to_double_exact by lia.
  rewrite !Z.div_div by lia. repeat split; reflexivity.
Qed.

(** X16. [formatTime] has no hours field and forgets the milliseconds: two
    timestamps whose distances from the start fall in hundredths that
    differ by a whole number of hours are shown the same, as long as both
    distances are below [2 ^ 53] ms, where the subtraction of two
    timestamps is exact. *)
Theorem formatTime_wraps (startTime timestamp timestamp' k : Z) :
  0 <= timestamp - startTime ->
  0 <= k ->
  timestamp - startTime < 2 ^ 53 ->
  timestamp' - startTime < 2 ^ 53 ->
  (timestamp' - startTime) / 10 = (timestamp - startTime) / 10 + 360000 * k ->
  formatTime startTime timestamp' = formatTime startTime timestamp.
Proof.
  intros Hd Hk Hlt Hlt' Hbucket.
  assert (0 <= timestamp' - startTime) as Hd'.
  { destruct (Z.lt_ge_cases (timestamp' - startTime) 0) as [Hneg|]; [|assumption].
    assert ((timestamp' - startTime) / 10 < 0) by (apply Z.div_lt_upper_bound; lia).
    assert (0 <= (timestamp - startTime) / 10) by (apply Z.div_pos; lia).
    nia. }
  rewrite !formatTime_fields by assumption.
  destruct (fields_of_bucket _ (conj Hd Hlt)) as (-> & -> & ->).
  destruct (fields_of_bucket _ (conj Hd' Hlt')) as (-> & -> & ->).
  rewrite Hbucket.
  replace (((timestamp - startTime) / 10 + 360000 * k) / 6000)
    with ((timestamp - startTime) / 10 / 6000 + (60 * k))
    by (replace (360000 * k) with (60 * k * 6000) by lia;
        rewrite Z.div_add by lia; reflexivity).
  replace (((timestamp - startTime) / 10 + 360000 * k) / 100)
    with ((timestamp - startTime) / 10 / 100 + (3600 * k))
    by (replace (360000 * k) with (3600 * k * 100) by lia;
        rewrite Z.div_add by lia; reflexivity).
  replace ((timestamp - startTime) / 10 / 6000 + 60 * k)
    with ((timestamp - startTime) / 10 / 6000 + k * 60) by lia.
  replace ((timestamp - startTime) / 10 / 100 + 3600 * k)
    with ((timestamp - startTime) / 10 / 100 + (60 * k) * 60) by lia.
  replace ((timestamp - startTime) / 10 + 360000 * k)
    with ((timestamp - startTime) / 10 + (3600 * k) * 100) by lia.
  rewrite !Z.mod_add by lia. reflexivity.
Qed.

Lemma digit_inj a b : 0 <= a < 10 -> 0 <= b < 10 -> digit a = digit b -> a = b.
Proof.
  intros Ha Hb Heq. unfold digit in Heq.
  apply (f_equal nat_of_ascii) in Heq.
  rewrite !nat_ascii_embedding in Heq by lia. lia.
Qed.

Lemma two_digits_inj a b :
  0 <= a < 100 -> 0 <= b < 100 -> two_digits a = two_digits b -> a = b.
Proof.
  intros Ha Hb Heq. unfold two_digits in Heq.
  injection Heq as H1 H2.
  apply digit_inj in H1; [|split; [apply Z.div_pos; lia|apply Z.div_lt_upper_bound; lia]..].
  apply digit_inj in H2; [|apply Z.mod_pos_bound; lia..].
  rewrite (Z.div_mod a 10), (Z.div_mod b 10) by lia. lia.
Qed.

(** X17. Within the first hour, [formatTime] is exact to the hundredth: two
    timestamps with the same text are in the same hundredth of a second. *)
Theorem formatTime_distinguishes (startTime d1 d2 : Z) :
  0 <= d1 < 3600000 ->
  0 <= d2 < 3600000 ->
  formatTime startTime (startTime + d1) = formatTime startTime (startTime + d2) ->
  d1 / 10 = d2 / 10.
Proof.
  intros H1 H2.
  replace (startTime + d1) with (d1 + startTime) by lia.
  replace (startTime + d2) with (d2 + startTime) by lia.
  rewrite !formatTime_fields by lia.
  replace (d1 + startTime - startTime) with d1 by lia.
  replace (d2 + startTime - startTime) with d2 by lia.
  destruct (fields_of_bucket d1 ltac:(lia)) as (-> & -> & ->).
  destruct (fields_of_bucket d2 ltac:(lia)) as (-> & -> & ->).
  assert (0 <= d1 / 10 < 360000) as Hq1
    by (split; [apply Z.div_pos; lia|apply Z.div_lt_upper_bound; lia]).
  assert (0 <= d2 / 10 < 360000) as Hq2
    by (split; [apply Z.div_pos; lia|apply Z.div_lt_upper_bound; lia]).
  generalize dependent (d1 / 10). generalize dependent (d2 / 10).
  intros q2 Hq2 q1 Hq1 Heq.
  unfold two_digits in Heq. cbn in Heq.
  injection Heq as Hm1 Hm2 Hs1 Hs2 Hh1 Hh2.
  assert ((q1 / 6000) mod 60 = (q2 / 6000) mod 60) as Hm.
  { apply two_digits_inj; [mod_bound..|]. unfold two_digits. congruence. }
  assert ((q1 / 100) mod 60 = (q2 / 100) mod 60) as Hs.
  { apply two_digits_inj; [mod_bound..|]. unfold two_digits. congruence. }
  assert (q1 mod 100 = q2 mod 100) as Hh.
  { apply two_digits_inj; [mod_bound..|]. unfold two_digits. congruence. }
  rewrite !Z.mod_small in Hm
    by (split; [apply Z.div_pos; lia|apply Z.div_lt_upper_bound; lia]).
  assert (q1 / 100 = q2 / 100) as Hq.
  { rewrite (Z.div_mod (q1 / 100) 60), (Z.div_mod (q2 / 100) 60) by lia.
    rewrite !Z.div_div by lia. change (100 * 60) with 6000. lia. }
  rewrite (Z.div_mod q1 100), (Z.div_mod q2 100) by lia. lia.
Qed.

(** ** autoConnect *)

Lemma connectConversation_returns env w :
  fst (connectConversation env w) = Normal tt.
Proof.
  destruct (connectConversation env w) as [r w'] eqn:Hrun.
  revert Hrun. unfold connectConversation. repeat step.
  all: intros [= <- <-]; cbn [fst]; destruct_units; reflexivity.
Qed.

(** X18. [autoConnect] always resolves, and its [catch] is unreachable:
    'Auto-connection failed:' is never logged, because [connectConversation]
    catches every error itself.  When the guard fails nothing happens at
    all; when it holds the effect logs the attempt and continues exactly as
    [connectConversation] does. *)
Theorem autoConnect_catch_unreachable (env : Env) (isReady : bool)
    (apiKey LOCAL_RELAY_SERVER_URL : string) (w : World) :
  let r := autoConnect env isReady apiKey LOCAL_RELAY_SERVER_URL w in
  let evs := new_events w (snd r) in
  let started :=
    log_event (EConsole lvl_log "Attempting auto-connection..." None) w in
  fst r = Normal tt /\
  existsb is_autoConnect_failure evs = false /\
  (should_autoConnect isReady (isConnected (ui w)) apiKey
     LOCAL_RELAY_SERVER_URL = false -> snd r = w) /\
  (should_autoConnect isReady (isConnected (ui w)) apiKey
     LOCAL_RELAY_SERVER_URL = true ->
   head evs = Some (EConsole lvl_log "Attempting auto-connection..." None) /\
   snd r = snd (connectConversation env started)).
Proof.
  cbv zeta.
  destruct (autoConnect env isReady apiKey LOCAL_RELAY_SERVER_URL w)
    as [r w'] eqn:Hrun.
  revert Hrun. unfold autoConnect, should_autoConnect.
  rewrite bind_run, get_run. cbv beta iota. unfold when.
  destruct (isReady && negb (isConnected (ui w))
            && (negb (String.eqb apiKey "")
                || negb (String.eqb LOCAL_RELAY_SERVER_URL ""))).
  - unfold mbind, M_bind. rewrite bind_run, console_run. cbv beta iota.
    unfold try_catch.
    pose proof (connectConversation_returns env
                  (log_event (EConsole lvl_log "Attempting auto-connection..." None) w))
      as Hret.
    destruct (connectConversation env _) as [r0 w0] eqn:Hconn.
    cbn in Hret. subst r0. intros [= <- <-]. cbn [fst snd].
    split; [reflexivity|].
    split; [|split; [discriminate|intros _; split; [|reflexivity]]].
    + revert Hconn. unfold connectConversation. repeat step.
      all: intros Heq; apply (f_equal snd) in Heq; cbn [snd] in Heq; subst w0.
      all: events_of_run; reflexivity.
    + revert Hconn. unfold connectConversation. repeat step.
      all: intros Heq; apply (f_equal snd) in Heq; cbn [snd] in Heq; subst w0.
      all: events_of_run; reflexivity.
  - intros [= <- <-]. cbn [fst snd]. unfold new_events. rewrite drop_all.
    split; [reflexivity|]. split; [reflexivity|].
    split; [reflexivity|discriminate].
Qed.

(** ** The bars of the visualizer *)

Lemma bars_loop_lookup barWidth height dataArray :
  forall x i bar,
    bars_loop barWidth height x dataArray !! i = Some bar ->
    exists byte,
      dataArray !! i = Some byte /\
      (bar_x bar == x + inject_Z (Z.of_nat i) * (barWidth + 1))%Q /\
      bar_width bar = barWidth /\
      bar_height bar = (inject_Z byte / 255 * height * 0.7)%Q /\
      bar_y bar = (height - bar_height bar)%Q.
Proof.
  induction dataArray as [|byte rest IH]; intros x i bar Hbar.
  - discriminate.
  - destruct i as [|i]; cbn in Hbar.
    + injection Hbar as <-. exists byte. cbn. repeat split. ring.
    + destruct (IH _ _ _ Hbar) as (b & Hb & Hx & Hw & Hh & Hy).
      exists b. split; [exact Hb|]. split; [|repeat split; assumption].
      rewrite Hx. rewrite Nat2Z.inj_succ, <- Z.add_1_r, inject_Z_plus. ring.
Qed.

Lemma bars_loop_length barWidth height dataArray :
  forall x, length (bars_loop barWidth height x dataArray) = length dataArray.
Proof.
  induction dataArray as [|byte rest IH]; intros x; [reflexivity|].
  cbn. rewrite IH. reflexivity.
Qed.

(** X19. The bars one frame of [animate] draws, in exact arithmetic: one per
    byte, all of width [barWidth], bar [i] at [x = i * (barWidth + 1)],
    standing on the bottom edge and at most 70% of the canvas high.  With
    the factor 2.5, every bar from index [2n/5] on starts at or beyond the
    right edge of the canvas. *)
Theorem animate_bars_layout (width height : Q) (dataArray : list Z) :
  (0 <= width)%Q -> (0 <= height)%Q ->
  Forall (fun byte => 0 <= byte <= 255) dataArray ->
  let barWidth := barWidth_of width dataArray in
  length (animate_bars width height dataArray) = length dataArray /\
  forall i bar,
    animate_bars width height dataArray !! i = Some bar ->
    (bar_x bar == inject_Z (Z.of_nat i) * (barWidth + 1))%Q /\
    bar_width bar = barWidth /\
    (bar_y bar + bar_height bar == height)%Q /\
    (0 <= bar_height bar)%Q /\
    (bar_height bar <= 0.7 * height)%Q /\
    (2 * Z.of_nat (length dataArray) <= 5 * Z.of_nat i ->
     (width <= bar_x bar)%Q).
Proof.
  intros Hw Hh Hbytes. cbv zeta. unfold animate_bars.
  split; [apply bars_loop_length|].
  intros i bar Hbar.
  destruct (bars_loop_lookup _ _ _ _ _ _ Hbar) as (byte & Hbyte & Hx & Hwd & Hht & Hy).
  assert (0 <= byte <= 255) as Hrange.
  { rewrite Forall_forall in Hbytes. apply Hbytes.
    apply list_elem_of_lookup. eauto. }
  assert (0 <= inject_Z byte / 255 <= 1)%Q as Hunit.
  { split.
    - apply Qle_shift_div_l; [reflexivity|].
      rewrite Qmult_0_l. change 0%Q with (inject_Z 0).
      rewrite <- Zle_Qle. lia.
    - apply Qle_shift_div_r; [reflexivity|].
      rewrite Qmult_1_l. change 255%Q with (inject_Z 255).
      rewrite <- Zle_Qle. lia. }
  split; [rewrite Hx; ring|]. split; [exact Hwd|].
  split; [rewrite Hy; ring|].
  rewrite Hht. split; [|split].
  - nra.
  - nra.
  - intros Hfar.
    assert (0 < length dataArray)%nat as Hlen.
    { apply lookup_lt_Some in Hbyte. lia. }
    rewrite Hx. unfold barWidth_of.
    set (n := inject_Z (Z.of_nat (length dataArray))).
    set (j := inject_Z (Z.of_nat i)).
    assert (0 < n)%Q as Hn.
    { unfold n. change 0%Q with (inject_Z 0). rewrite <- Zlt_Qlt. lia. }
    assert (2 * n <= 5 * j)%Q as Hfar'.
    { unfold n, j. change 2%Q with (inject_Z 2). change 5%Q with (inject_Z 5).
      rewrite <- !inject_Z_mult, <- Zle_Qle. exact Hfar. }
    assert (0 <= width / n)%Q as Hb.
    { apply Qle_shift_div_l; [exact Hn|]. rewrite Qmult_0_l. exact Hw. }
    assert (width == width / n * n)%Q as Hsplit.
    { field. intros Hz. rewrite Hz in Hn. discriminate Hn. }
    rewrite Hsplit at 1.
    assert (0 <= j)%Q by lra.
    nra.
Qed.

(** ** Push-to-talk and conversation handlers *)

Lemma talk_bind_run {A B} (m : Talk.M A) (k : A -> Talk.M B) w :
  Talk.bind m k w
  = match m w with
    | (Normal a, w') => k a w'
    | (Thrown e, w') => (Thrown e, w')
    end.
Proof. reflexivity. Qed.

Lemma talk_call_run env c w :
  Talk.call env c w
  = match env (Talk.trace w) c with
    | Returns a => (Normal a, Talk.log_event (Talk.ECall c (Returns a)) w)
    | Throws e => (Thrown e, Talk.log_event (Talk.ECall c (Throws e)) w)
    end.
Proof. unfold Talk.call. destruct (env (Talk.trace w) c); reflexivity. Qed.

Lemma talk_new_events_app w w' evs :
  Talk.trace w' = Talk.trace w ++ evs -> Talk.new_events w w' = evs.
Proof. intros H. unfold Talk.new_events. rewrite H. apply drop_app_length. Qed.

(** One step of a handler of [Talk]; a call splits on its outcome. *)
Ltac talk_step :=
  first
    [ rewrite talk_bind_run
    | rewrite talk_call_run;
      match goal with
      | |- context [match ?e ?h ?c with Returns _ => _ | Throws _ => _ end] =>
          destruct (e h c) eqn:?
      end
    | progress cbv beta iota zeta
    | progress cbn [negb]
    | progress unfold mbind, Talk.M_bind, Talk.when, Talk.set, Talk.ret,
        Talk.assignFile, Talk.cancelIfTrack
    | progress cbn [Talk.ui Talk.log_event Talk.apply_set]
    | match goal with
      | |- context [if ?b then _ else _] => destruct b eqn:?
      | |- context [match ?x with Some _ => _ | None => _ end] =>
          destruct x eqn:?
      end ].

(** Destructs the values of type [unit] that calls returned. *)
Ltac talk_units :=
  repeat match goal with
         | a : Talk.ret_type _ |- _ => cbn in a
         | a : unit |- _ => destruct a
         end.

Ltac talk_events :=
  repeat
    match goal with
    | |- context [Talk.new_events ?w ?w'] =>
        erewrite (talk_new_events_app w w')
          by (cbn [Talk.trace Talk.ui Talk.log_event Talk.apply_set];
              rewrite <- ?app_assoc; cbn [app]; reflexivity)
    end.

(** X20. [startRecording] does nothing but ask for the status when the
    recorder is already recording.  Otherwise, when nothing throws, it sets
    [isRecording], interrupts the player, cancels the response if a track
    was playing and starts the recorder, in this order.  A throw ends the
    handler there, and after the status check [isRecording] stays true. *)
Theorem startRecording_steps (env : Talk.Env) (w : Talk.World) :
  let r := Talk.startRecording env w in
  let evs := Talk.new_events w (snd r) in
  (env (Talk.trace w) Talk.recorder_getStatus = Returns status_recording ->
   r = (Normal tt,
        Talk.log_event
          (Talk.ECall Talk.recorder_getStatus (Returns status_recording)) w)) /\
  (Talk.no_throw evs = true ->
   forall status,
     env (Talk.trace w) Talk.recorder_getStatus = Returns status ->
     status <> status_recording ->
     exists track,
       evs = [Talk.ECall Talk.recorder_getStatus (Returns status);
              Talk.ESet (setIsRecording true);
              Talk.ECall Talk.player_interrupt (Returns track)]
             ++ Talk.cancel_events track
             ++ [Talk.ECall (Talk.recorder_record append_always) (Returns tt)] /\
       isRecording (Talk.ui (snd r)) = true) /\
  (forall ev failing err,
      ev ∈ evs -> Talk.thrown ev = Some (failing, err) ->
      fst r = Thrown err /\
      last evs = Some ev /\
      (failing <> Talk.recorder_getStatus ->
       isRecording (Talk.ui (snd r)) = true)).
Proof.
  cbv zeta. split; [|split].
  - intros Hst. unfold Talk.startRecording.
    rewrite talk_bind_run, talk_call_run, Hst. reflexivity.
  - destruct (Talk.startRecording env w) as [r w'] eqn:Hrun.
    revert Hrun. unfold Talk.startRecording. repeat talk_step.
    all: intros [= <- <-]; cbn [fst snd]; talk_events.
    all: intros Hno status Hst Hne; try discriminate Hno.
    all: revert Hst; intros [= ->].
    all: try (destruct status; try discriminate; congruence).
    all: talk_units.
    all: match goal with
         | H : _ _ Talk.player_interrupt = Returns ?t |- _ => exists t
         end.
    all: split;
      [unfold Talk.cancel_events;
       repeat match goal with
              | H : nonempty _ = _ |- _ => rewrite H
              end;
       reflexivity
      |cbn; destruct (Talk.ui w); reflexivity].
  - destruct (Talk.startRecording env w) as [r w'] eqn:Hrun.
    revert Hrun. unfold Talk.startRecording. repeat talk_step.
    all: intros [= <- <-]; cbn [fst snd]; talk_events.
    all: intros ev failing err Hin Hthrown.
    all: split_elem_of Hin; try discriminate Hthrown.
    all: revert Hthrown; intros [= <- <-].
    all: split; [reflexivity|]. 
    all: split; [reflexivity|].
    all: intros Hcall; try congruence.
    all: cbn; destruct (Talk.ui w); reflexivity.
Qed.

(** X21. [stopRecording] sets [isRecording] to false first, whatever
    follows.  When nothing throws it pauses the recorder only if it is
    recording, then creates the response; when the status check or the
    pause throws, no response is created. *)
Theorem stopRecording_steps (env : Talk.Env) (w : Talk.World) :
  let r := Talk.stopRecording env w in
  let evs := Talk.new_events w (snd r) in
  isRecording (Talk.ui (snd r)) = false /\
  head evs = Some (Talk.ESet (setIsRecording false)) /\
  (Talk.no_throw evs = true ->
   exists status,
     evs = [Talk.ESet (setIsRecording false);
            Talk.ECall Talk.recorder_getStatus (Returns status)]
           ++ (if is_recording status
               then [Talk.ECall Talk.recorder_pause (Returns tt)]
               else [])
           ++ [Talk.ECall Talk.client_createResponse (Returns tt)]) /\
  (forall ev failing err,
      ev ∈ evs -> Talk.thrown ev = Some (failing, err) ->
      fst r = Thrown err /\
      last evs = Some ev /\
      (failing <> Talk.client_createResponse ->
       Talk.client_createResponse ∉ Talk.calls evs)).
Proof.
  cbv zeta.
  destruct (Talk.stopRecording env w) as [r w'] eqn:Hrun.
  revert Hrun. unfold Talk.stopRecording. repeat talk_step.
  all: intros [= <- <-]; cbn [fst snd]; talk_events.
  all: talk_units.
  all: split; [cbn; destruct (Talk.ui w); reflexivity|].
  all: split; [reflexivity|].
  all: split.
  all: try (intros Hno; try discriminate Hno;
            match goal with
            | H : is_recording ?st = _ |- _ => exists st; rewrite H
            end; reflexivity).
  all: intros ev failing err Hin Hthrown.
  all: split_elem_of Hin; try discriminate Hthrown.
  all: revert Hthrown; intros [= <- <-].
  all: split; [reflexivity|].
  all: split; [reflexivity|].
  all: intros Hcall; try congruence.
  all: cbn; intros Hin.
  all: repeat (apply elem_of_cons in Hin as [Hin|Hin]; [discriminate Hin|]).
  all: apply elem_of_nil in Hin; exact Hin.
Qed.

(** X22. On 'conversation.interrupted' the player is interrupted, and the
    response is cancelled exactly when the interrupt returned an offset
    with a non-empty track id, with that id and offset. *)
Theorem onConversationInterrupted_cancels (env : Talk.Env) (w : Talk.World)
    (track : option Talk.TrackSampleOffset) :
  env (Talk.trace w) Talk.player_interrupt = Returns track ->
  let r := Talk.onConversationInterrupted env w in
  Talk.calls (Talk.new_events w (snd r))
  = Talk.player_interrupt
    :: match track with
       | Some t =>
           match nonempty (Talk.trackId t) with
           | Some id => [Talk.client_cancelResponse id (Talk.offset t)]
           | None => []
           end
       | None => []
       end.
Proof.
  intros Htrack. cbv zeta. unfold Talk.onConversationInterrupted.
  rewrite talk_bind_run, talk_call_run, Htrack. cbv beta iota.
  unfold Talk.cancelIfTrack.
  destruct track as [t|]; [destruct (nonempty (Talk.trackId t)) as [id|]|].
  all: repeat talk_step.
  all: cbn [snd]; talk_events; reflexivity.
Qed.

(** X23. On 'conversation.updated' the items are read before anything
    else and set last: when nothing throws, the calls are [getItems], the
    audio of the delta if there is one, and the decode of a completed item
    with audio, and [items] ends as the list read at the start.  When a call
    throws the handler ends there and [setItems] has not run. *)
Theorem onConversationUpdated_steps (env : Talk.Env) (item : Talk.Item)
    (delta : option Talk.Delta) (w : Talk.World) :
  let r := Talk.onConversationUpdated env item delta w in
  let evs := Talk.new_events w (snd r) in
  (Talk.no_throw evs = true ->
   exists conversationItems,
     env (Talk.trace w) Talk.client_getItems = Returns conversationItems /\
     Talk.calls evs = update_calls item delta /\
     last evs = Some (Talk.ESet (setItems conversationItems)) /\
     items (Talk.ui (snd r)) = conversationItems) /\
  (forall ev failing err,
      ev ∈ evs -> Talk.thrown ev = Some (failing, err) ->
      fst r = Thrown err /\
      last evs = Some ev /\
      Talk.calls evs `prefix_of` update_calls item delta /\
      Talk.ui (snd r) = Talk.ui w).
Proof.
  cbv zeta. unfold update_calls.
  destruct (Talk.onConversationUpdated env item delta w) as [r w'] eqn:Hrun.
  revert Hrun. unfold Talk.onConversationUpdated.
  destruct delta as [[[audio|]]|];
    cbn [Talk.delta_audio];
    destruct (String.eqb (Talk.status item) "completed");
    destruct (Talk.has_audio item) as [samples|].
  all: repeat talk_step.
  all: intros [= <- <-]; cbn [fst snd]; talk_events.
  all: talk_units.
  all: split.
  all: try (intros Hno; discriminate Hno).
  all: try (intros Hno; eexists;
            split; [reflexivity|]; split; [reflexivity|];
            split; [reflexivity|];
            cbn [Talk.ui Talk.apply_set Talk.log_event];
            destruct (Talk.ui w); reflexivity).
  all: intros ev failing err Hin Hthrown.
  all: split_elem_of Hin; try discriminate Hthrown.
  all: revert Hthrown; intros [= <- <-].
  all: split; [reflexivity|].
  all: split; [reflexivity|].
  all: split; [eexists; reflexivity|reflexivity].
Qed.

(** ** The transcript bubbles *)

Lemma nonempty_not_blank x s : nonempty x = Some s -> s <> ""%string.
Proof.
  unfold nonempty. destruct x as [y|]; [|discriminate].
  destruct (String.eqb y "") eqn:Hy; [discriminate|].
  intros [= <-] ->. discriminate Hy.
Qed.

(** X24. The page never renders an empty bubble: every rendered text is
    non-empty, and there are no more bubbles than items.  An item that passed the
    filter by the url of its file alone is shown as '...'. *)
Theorem bubbles_have_text (items : list Formatted) :
  Forall (fun s => s <> ""%string) (bubbles items) /\
  (length (bubbles items) <= length items)%nat /\
  (forall f, f ∈ items -> has_content f = true ->
     nonempty (formatted_transcript f) = None -> nonempty (formatted_text f) = None ->
     bubble_text f = "..."%string /\
     exists url, formatted_file f = Some (Some url) /\ url <> ""%string).
Proof.
  split; [|split].
  - unfold bubbles. apply Forall_map, Forall_forall.
    intros f _. unfold bubble_text. cbn.
    destruct (nonempty (formatted_transcript f)) as [s|] eqn:Ht;
      [exact (nonempty_not_blank _ _ Ht)|].
    destruct (nonempty (formatted_text f)) as [s|] eqn:Hx;
      [exact (nonempty_not_blank _ _ Hx)|discriminate].
  - unfold bubbles. rewrite length_map. apply length_filter.
  - intros f _ Hcontent Ht Hx. unfold bubble_text. rewrite Ht, Hx.
    split; [reflexivity|].
    unfold has_content in Hcontent. rewrite Ht, Hx in Hcontent.
    destruct (formatted_file f) as [url|]; [|discriminate].
    destruct (nonempty url) as [u|] eqn:Hurl; [|discriminate].
    unfold nonempty in Hurl. destruct url as [y|]; [|discriminate].
    destruct (String.eqb y "") eqn:Hy; [discriminate|].
    exists y. split; [reflexivity|]. intros ->. discriminate Hy.
Qed.

(** ** Runs on concrete inputs *)

Lemma connectConversation_microphone_refused_witness :
  let r := connectConversation (env_of true false getUserMedia_fails)
             initialWorld in
  fst r = Normal tt /\
  new_events initialWorld (snd r)
  = [ECall getUserMedia (Throws (VStr "failed"));
     EConsole lvl_error "Error connecting:" (Some (VStr "failed"));
     ESet (setIsConnected false);
     ESet (setIsRecordingActive false)] /\
  animationFrameRef (snd r) = animationFrameRef initialWorld /\
  startTimeRef (snd r) = startTimeRef initialWorld.
Proof.
  apply (connectConversation_microphone_refused
           (env_of true false getUserMedia_fails) initialWorld).
  reflexivity.
Defined.

Lemma connectConversation_frame_stays_witness :
  let r := connectConversation (env_of true false recorder_begin_fails)
             initialWorld in
  exists handle rest,
    new_events initialWorld (snd r)
    = [ECall getUserMedia (Returns 1%positive);
       ESet (setIsRecordingActive true);
       EPrim (requestAnimationFrame cb_updateAudioLevels) handle;
       ERef (write_animationFrameRef handle)] ++ rest /\
    existsb touches_frame rest = false.
Proof.
  apply (proj2 (connectConversation_frame_stays
                  (env_of true false recorder_begin_fails) initialWorld)
           1%positive).
  reflexivity.
Defined.


Lemma disconnectConversation_unguarded_witness :
  let r := disconnectConversation (env_of true true close_fails) sessionWorld in
  fst r = Thrown (VStr "failed") /\
  last (new_events sessionWorld (snd r))
  = Some (ECall (audioContext_close 3%positive) (Throws (VStr "failed"))) /\
  ui (snd r) = ui sessionWorld.
Proof.
  cbv zeta.
  destruct (proj2 (disconnectConversation_unguarded
                     (env_of true true close_fails) sessionWorld)
              (ECall (audioContext_close 3%positive) (Throws (VStr "failed")))
              (audioContext_close 3%positive) (VStr "failed"))
    as (Hres & Hlast & Hui).
  - vm_compute. right. left.
  - reflexivity.
  - split; [exact Hres|]. split; [exact Hlast|].
    exact (proj1 (Hui 3%positive eq_refl)).
Defined.

Lemma disconnectConversation_twice_witness :
  let w1 := snd (disconnectConversation (env_of true true never) sessionWorld) in
  let r2 := disconnectConversation (env_of false false never) w1 in
  ui (snd r2) = ui w1 /\
  head (new_events sessionWorld w1) = Some (EPrim (cancelAnimationFrame 7) tt) /\
  new_events w1 (snd r2)
  = EPrim (cancelAnimationFrame 7) tt
    :: reset_events
    ++ [ECall client_disconnect (Returns tt); ECall recorder_end (Returns tt);
        ECall player_interrupt (Returns None)].
Proof.
  cbv zeta.
  destruct (disconnectConversation_twice (env_of true true never)
              (env_of false false never) sessionWorld)
    as (Hui & _ & _).
  - vm_compute. reflexivity.
  - split; [exact Hui|]. split; reflexivity.
Defined.

Lemma updateAudioLevels_next_frame_witness :
  let r := updateAudioLevels (env_of true true never) initialWorld in
  exists handle,
    fst r = Normal tt /\
    last_events 2 (new_events initialWorld (snd r))
    = [EPrim (requestAnimationFrame cb_updateAudioLevels) handle;
       ERef (write_animationFrameRef handle)] /\
    animationFrameRef (snd r) = Some handle.
Proof.
  apply (proj1 (updateAudioLevels_next_frame (env_of true true never)
                  initialWorld)).
  vm_compute. reflexivity.
Defined.

Lemma updateAudioLevels_levels_witness :
  levels_ok
    (audioLevels (ui (snd (updateAudioLevels (env_of true true never)
                             initialWorld)))) /\
  levels_ok
    (audioLevels (ui (snd (updateAudioLevels (env_of true false never)
                             initialWorld)))).
Proof.
  split.
  - apply (updateAudioLevels_levels (env_of true true never) initialWorld).
    + intros h. cbn. split; [discriminate|reflexivity].
    + intros h values Hf. cbn in Hf. injection Hf as <-. discriminate.
    + split; [reflexivity|]. repeat constructor; cbn; discriminate.
  - apply (updateAudioLevels_levels (env_of true false never) initialWorld).
    + intros h. cbn. split; [discriminate|reflexivity].
    + intros h values Hf. cbn in Hf. injection Hf as <-. discriminate.
    + split; [reflexivity|]. repeat constructor; cbn; discriminate.
Defined.

Lemma render_throw_ends_loop_witness :
  let r := render (env_of true true drawBars_fails) mountedWorld in
  fst r = Thrown (VStr "failed") /\
  existsb (is_request_frame cb_render) (new_events mountedWorld (snd r)) = false.
Proof.
  cbv zeta.
  destruct (proj2 (render_throw_ends_loop
                     (env_of true true drawBars_fails) mountedWorld)
              (ECall (drawBars client_canvas (Some [0.25%Q; 0.5%Q]) "#4F46E5"
                        20 2 16) (Throws (VStr "failed")))
              (drawBars client_canvas (Some [0.25%Q; 0.5%Q]) "#4F46E5" 20 2 16)
              (VStr "failed"))
    as (Hres & _ & Hframe).
  - vm_compute. do 5 right. left.
  - reflexivity.
  - split; [exact Hres|exact Hframe].
Defined.

Lemma changeTurnEndType_any_value_witness :
  let r := changeTurnEndType (env_of true false never) "manual" initialWorld in
  exists status connected,
    new_events initialWorld (snd r)
    = pause_events status
      ++ ECall client_isConnected (Returns connected)
         :: (if connected
             then ECall (client_updateSession
                           (if String.eqb "manual" "none" then td_null
                            else td_server_vad)) (Returns tt)
                  :: (if String.eqb "manual" "server_vad"
                      then [EPrim (setTimeout_promise 100) tt;
                            ECall (recorder_record append_if_connected)
                              (Returns tt)]
                      else [])
             else [])
      ++ [ESet (setCanPushToTalk (String.eqb "manual" "none"))] /\
    canPushToTalk (ui (snd r)) = String.eqb "manual" "none".
Proof.
  apply (changeTurnEndType_any_value (env_of true false never) "manual"
           initialWorld).
  vm_compute. reflexivity.
Defined.

Lemma apiKey_second_run_witness :
  let w1 := snd (apiKey (env_of true false never) "" initialWorld) in
  let r2 := apiKey (env_of true false never) "" w1 in
  fst r2 = Normal "sk-entered"%string /\
  new_events w1 (snd r2)
  = [EStorage (storage_getItem api_key_entry);
     EStorage (storage_setItem api_key_entry "sk-entered")] /\
  localStorage (snd r2) = localStorage w1.
Proof.
  apply (apiKey_second_run (env_of true false never) (env_of true false never)
           initialWorld "sk-entered").
  - reflexivity.
  - discriminate.
Defined.

Lemma resetAPIKey_then_apiKey_witness :
  let w1 := snd (resetAPIKey (env_of true false never) storedKeyWorld) in
  localStorage w1 !! api_key_entry = Some "sk-entered"%string /\
  fst (apiKey (env_of true false never) "" w1) = Normal "sk-entered"%string.
Proof.
  cbv zeta.
  destruct (resetAPIKey_then_apiKey (env_of true false never)
              (env_of true false never) storedKeyWorld "sk-entered" eq_refl)
    as (_ & Hstored & Hnext & _).
  split; [exact Hstored|].
  apply Hnext. discriminate.
Defined.

Lemma set_memory_stores_witness :
  memoryKv (ui (snd (set_memory "name" (VStr "Ada")
                       (snd (set_memory "city" (VStr "Kyiv") initialWorld)))))
    !! "city"%string = Some (VStr "Kyiv").
Proof.
  destruct (set_memory_stores "name" (VStr "Ada")
              (snd (set_memory "city" (VStr "Kyiv") initialWorld))
              ltac:(discriminate))
    as (_ & _ & Hframe).
  rewrite Hframe by discriminate.
  apply (set_memory_stores "city" (VStr "Kyiv") initialWorld).
  discriminate.
Defined.

Lemma set_memory_composes_witness :
  memoryKv
    (ui (snd (set_memory "city" (VStr "Kyiv")
                (snd (set_memory "name" (VStr "Ada") initialWorld)))))
  = memoryKv
      (ui (snd (set_memory "name" (VStr "Ada")
                  (snd (set_memory "city" (VStr "Kyiv") initialWorld))))).
Proof.
  symmetry.
  apply (proj1 (proj2 (set_memory_composes "city" "name" (VStr "Kyiv")
                         (VStr "Ada") initialWorld ltac:(discriminate)
                         ltac:(discriminate)))).
  discriminate.
Defined.

Lemma pad_loop_terminates_witness :
  pad 7 = "07"%string /\ pad (-5) = "-5"%string.
Proof.
  split.
  - apply (proj2 (proj2 (proj2 (pad_loop_terminates 7 0)))). reflexivity.
  - apply (proj1 (proj2 (proj2 (pad_loop_terminates (-5) 0)))).
    vm_compute. lia.
Defined.

Lemma formatTime_format_witness :
  formatTime 0 83450
  = (two_digits 1 +:+ ":" +:+ two_digits 23 +:+ "." +:+ two_digits 45)%string.
Proof.
  apply (proj1 (formatTime_format 0 83450 ltac:(lia))).
Defined.

Lemma formatTime_wraps_witness :
  formatTime 0 (83450 + 3600000 + 7) = formatTime 0 83450.
Proof.
  apply (formatTime_wraps 0 83450 (83450 + 3600000 + 7) 1);
    [lia|lia|lia|lia|reflexivity].
Defined.

Lemma formatTime_distinguishes_witness :
  formatTime 1000 (1000 + 83450) = "01:23.45"%string /\
  83450 / 10 = 83457 / 10.
Proof.
  split; [reflexivity|].
  apply (formatTime_distinguishes 1000 83450 83457); [lia|lia|reflexivity].
Defined.

Lemma autoConnect_catch_unreachable_witness :
  let r := autoConnect (env_of true false getUserMedia_fails) true "sk-key" ""
             initialWorld in
  head (new_events initialWorld (snd r))
  = Some (EConsole lvl_log "Attempting auto-connection..." None) /\
  existsb is_autoConnect_failure (new_events initialWorld (snd r)) = false.
Proof.
  cbv zeta.
  pose proof (autoConnect_catch_unreachable
                (env_of true false getUserMedia_fails) true "sk-key" ""
                initialWorld) as (_ & Hnone & _ & Hstart).
  split; [|exact Hnone].
  exact (proj1 (Hstart eq_refl)).
Defined.

Lemma animate_bars_layout_witness :
  length (animate_bars 300 150 [0; 128; 255; 64; 32]) = 5%nat.
Proof.
  apply (animate_bars_layout 300 150 [0; 128; 255; 64; 32]).
  - discriminate.
  - discriminate.
  - repeat constructor; lia.
Defined.

Lemma bubbles_have_text_witness :
  bubble_text (mkFormatted None (Some ""%string) (Some (Some "blob:1"%string)))
  = "..."%string.
Proof.
  apply (proj2 (proj2 (bubbles_have_text
                         [mkFormatted None (Some ""%string)
                            (Some (Some "blob:1"%string))]))
           (mkFormatted None (Some ""%string) (Some (Some "blob:1"%string)))).
  - left.
  - reflexivity.
  - reflexivity.
  - reflexivity.
Defined.

Lemma startRecording_steps_witness :
  let r := Talk.startRecording (Talk.env_of status_paused playing_track)
             Talk.initialWorld in
  exists track,
    Talk.new_events Talk.initialWorld (snd r)
    = [Talk.ECall Talk.recorder_getStatus (Returns status_paused);
       Talk.ESet (setIsRecording true);
       Talk.ECall Talk.player_interrupt (Returns track)]
      ++ Talk.cancel_events track
      ++ [Talk.ECall (Talk.recorder_record append_always) (Returns tt)] /\
    isRecording (Talk.ui (snd r)) = true.
Proof.
  apply (proj1 (proj2 (startRecording_steps
                         (Talk.env_of status_paused playing_track)
                         Talk.initialWorld)));
    [reflexivity|reflexivity|discriminate].
Defined.

Lemma stopRecording_steps_witness :
  let r := Talk.stopRecording (Talk.env_of status_paused None)
             Talk.initialWorld in
  exists status,
    Talk.new_events Talk.initialWorld (snd r)
    = [Talk.ESet (setIsRecording false);
       Talk.ECall Talk.recorder_getStatus (Returns status)]
      ++ (if is_recording status
          then [Talk.ECall Talk.recorder_pause (Returns tt)]
          else [])
      ++ [Talk.ECall Talk.client_createResponse (Returns tt)].
Proof.
  apply (proj1 (proj2 (proj2 (stopRecording_steps
                                (Talk.env_of status_paused None)
                                Talk.initialWorld)))).
  reflexivity.
Defined.

Lemma onConversationInterrupted_cancels_witness :
  Talk.calls
    (Talk.new_events Talk.initialWorld
       (snd (Talk.onConversationInterrupted
               (Talk.env_of status_paused playing_track) Talk.initialWorld)))
  = [Talk.player_interrupt; Talk.client_cancelResponse "track-1" 4800].
Proof.
  apply (onConversationInterrupted_cancels
           (Talk.env_of status_paused playing_track) Talk.initialWorld
           playing_track).
  reflexivity.
Defined.

Lemma onConversationUpdated_steps_witness :
  let r := Talk.onConversationUpdated Talk.decode_fails completed_item
             (Some (Talk.mkDelta (Some [7; 8]))) Talk.initialWorld in
  fst r = Thrown (VStr "decode failed") /\
  Talk.ui (snd r) = Talk.ui Talk.initialWorld /\
  Talk.calls (Talk.new_events Talk.initialWorld (snd r))
  = [Talk.client_getItems; Talk.player_add16BitPCM [7; 8] "item-1";
     Talk.WavRecorder_decode [1; 2; 3] 24000 24000].
Proof.
  cbv zeta.
  destruct (proj2 (onConversationUpdated_steps Talk.decode_fails completed_item
                     (Some (Talk.mkDelta (Some [7; 8]))) Talk.initialWorld)
              (Talk.ECall (Talk.WavRecorder_decode [1; 2; 3] 24000 24000)
                 (Throws (VStr "decode failed")))
              (Talk.WavRecorder_decode [1; 2; 3] 24000 24000)
              (VStr "decode failed"))
    as (Hres & _ & _ & Hui).
  - vm_compute. do 2 right. left.
  - reflexivity.
  - split; [exact Hres|]. split; [exact Hui|reflexivity].
Defined.
